(** * dgraph/cmd/zero/zero.go: the membership authority of group zero

    A shallow embedding of the request-handling surface of [Server]
    (SetMembershipState, removeZero, createProposals, Connect,
    ShouldServe) and the properties its specification states about it,
    followed by the lookups and updates around them (member, Leader,
    KnownGroups, hasLeader, storeZero, updateZeroLeader, removeNode) and
    further properties of the code.

    Conventions of the embedding:
    - Go's fixed-width integers are [Z] with the conversion written out
      ([uint32], [uint64]); [int] and [len] are 64-bit and never wrap for
      the sizes a map can have.
    - A Go map is [option (gmap K V)]: [None] is the nil map, which reads
      as the empty map, and [Some ∅] is an allocated empty map.
    - Protobuf messages are records; a message stored in a map is a
      non-nil pointer (what the generated decoder produces), so map values
      are the records themselves.
    - [range] over a map visits its entries in an unspecified order; the
      order is supplied by a [Sched], one order per loop site.
    - The consensus node, the connection pool and the request context are
      collaborators outside this file; they are the fields of [Env]. *)

From Stdlib Require Import ZArith String Bool Lia PrimFloat FloatOps SpecFloat.
From stdpp Require Import gmap strings list fin_maps.

Local Open Scope Z_scope.

(** ** Go values *)

Module Go.

Definition uint32 (z : Z) : Z := z mod 4294967296.
Definition uint64 (z : Z) : Z := z mod 18446744073709551616.

(** The entries of a map value: a nil map has none. *)
Definition entries {K V} `{Countable K} (m : option (gmap K V)) : gmap K V :=
  default ∅ m.

(** [v, has := m[k]] *)
Definition get {K V} `{Countable K} (m : option (gmap K V)) (k : K) : option V :=
  entries m !! k.

(** [len(m)] *)
Definition len {K V} `{Countable K} (m : option (gmap K V)) : Z :=
  Z.of_nat (size (entries m)).

(** [delete(m, k)]: a no-op on the nil map, which stays nil. *)
Definition del {K V} `{Countable K} (k : K) (m : option (gmap K V)) : option (gmap K V) :=
  delete k <$> m.

(** [float64(x)] for an int64 [x]: round to nearest, ties to even. *)
Definition float64 (x : Z) : float :=
  SF2Prim (binary_normalize prec emax x 0 false).

(** The untyped constant [0.1] converted to float64. *)
Definition f0_1 : float := 0x1.999999999999ap-4%float.

(** What one iteration of a loop body ends in: [return r], [break], or
    the next iteration ([continue], or the end of the body). *)
Inductive step (R A : Type) : Type :=
| Return (r : R)
| Break (a : A)
| Continue (a : A).
Arguments Return {R A} r.
Arguments Break {R A} a.
Arguments Continue {R A} a.

(** [for _, e := range l { body }]: [inl r] when the body returned [r],
    [inr a] when the loop was left with loop state [a]. *)
Fixpoint forRange {R A E : Type} (body : A → E → step R A) (a : A) (l : list E)
    : R + A :=
  match l with
  | [] => inr a
  | e :: l' =>
    match body a e with
    | Return r => inl r
    | Break a' => inr a'
    | Continue a' => forRange body a' l'
    end
  end.

(** A call either returns or panics (nil dereference, failed assertion). *)
Inductive result (A : Type) : Type :=
| Returns (a : A)
| Panics.
Arguments Returns {A} a.
Arguments Panics {A}.

End Go.

(** ** protos/pb: the messages zero.go reads and writes *)

Module Member.
Record t : Type := mk {
  Id : Z;                 (* uint64 *)
  GroupId : Z;            (* uint32 *)
  Addr : string;
  Leader : bool;
  AmDead : bool;
  ClusterInfoOnly : bool
}.
Definition withId (m : t) (id : Z) : t :=
  mk id (GroupId m) (Addr m) (Leader m) (AmDead m) (ClusterInfoOnly m).
Definition withGroupId (m : t) (gid : Z) : t :=
  mk (Id m) gid (Addr m) (Leader m) (AmDead m) (ClusterInfoOnly m).
End Member.

Module Tablet.
Record t : Type := mk {
  GroupId : Z;            (* uint32 *)
  Predicate : string;
  Force : bool;
  Space : Z;              (* int64 *)
  Remove : bool;
  ReadOnly : bool
}.
Definition withForce (tb : t) (f : bool) : t :=
  mk (GroupId tb) (Predicate tb) f (Space tb) (Remove tb) (ReadOnly tb).
End Tablet.

Module Group.
Record t : Type := mk {
  Members : option (gmap Z Member.t);
  Tablets : option (gmap string Tablet.t);
  SnapshotTs : Z          (* uint64 *)
}.
Definition withTablets (g : t) (ts : option (gmap string Tablet.t)) : t :=
  mk (Members g) ts (SnapshotTs g).
End Group.

Module MembershipState.
Record t : Type := mk {
  Counter : Z;
  Groups : option (gmap Z Group.t);
  Zeros : option (gmap Z Member.t);
  MaxLeaseId : Z;
  MaxTxnTs : Z;
  MaxRaftId : Z;          (* uint64 *)
  Removed : list Member.t
}.
Definition withGroups (st : t) (gs : option (gmap Z Group.t)) : t :=
  mk (Counter st) gs (Zeros st) (MaxLeaseId st) (MaxTxnTs st) (MaxRaftId st) (Removed st).
Definition withZeros (st : t) (zs : option (gmap Z Member.t)) : t :=
  mk (Counter st) (Groups st) zs (MaxLeaseId st) (MaxTxnTs st) (MaxRaftId st) (Removed st).
Definition withRemoved (st : t) (r : list Member.t) : t :=
  mk (Counter st) (Groups st) (Zeros st) (MaxLeaseId st) (MaxTxnTs st) (MaxRaftId st) r.
End MembershipState.

Module ZeroProposal.
Record t : Type := mk {
  SnapshotTs : option (gmap Z Z);
  Member : option Member.t;
  Tablet : option Tablet.t;
  MaxRaftId : Z
}.
(** [new(pb.ZeroProposal)] *)
Definition zero : t := mk None None None 0.
Definition withMember (p : t) (m : Member.t) : t :=
  mk (SnapshotTs p) (Some m) (Tablet p) (MaxRaftId p).
Definition withMaxRaftId (p : t) (id : Z) : t :=
  mk (SnapshotTs p) (Member p) (Tablet p) id.
End ZeroProposal.

Module ConnectionState.
Record t : Type := mk {
  Member : option Member.t;
  State : option MembershipState.t;
  MaxPending : Z
}.
End ConnectionState.

(** ** package zero *)

Inductive error : Type :=
| errInternalError
| errUnknownMember
| errUpdatedMember
| errServerShutDown
| errTabletAlreadyServed            (* declared in raft.go *)
| ErrReuseRemovedId                 (* x.ErrReuseRemovedId *)
| ErrDuplicateRaftId                (* conn.ErrDuplicateRaftId *)
| Errorf (msg : string)             (* x.Errorf(...) *)
| ErrContext (msg : string)         (* ctx.Err() *)
| ErrOther (code : nat).            (* any other failure of a collaborator *)

#[global] Instance error_eq_dec : EqDecision error.
Proof. solve_decision. Defined.

Record Server : Type := mkServer {
  NumReplicas : Z;          (* int *)
  state : MembershipState.t;
  nextLeaseId : Z;
  nextTxnTs : Z;
  readOnlyTs : Z;
  nextGroup : Z             (* uint32 *)
}.

Definition setState (s : Server) (st : MembershipState.t) : Server :=
  mkServer (NumReplicas s) st (nextLeaseId s) (nextTxnTs s) (readOnlyTs s) (nextGroup s).
Definition setNextGroup (s : Server) (n : Z) : Server :=
  mkServer (NumReplicas s) (state s) (nextLeaseId s) (nextTxnTs s) (readOnlyTs s) n.

(** Calls made on the connection pool [conn.Get()]. *)
Inductive ConnOp : Type :=
| PoolConnect (addr : string)
| PoolRemove (addr : string).

(** The collaborators of one request. *)
Record Env : Type := mkEnv {
  (** [ctx.Err()] *)
  ctxErr : option error;
  (** [conn.Get().Get(addr)] returned a pool and a nil error *)
  healthy : string → bool;
  (** [s.Node.proposeAndWait(ctx, p)]: the error it returns and the state
      the server is in when it returns *)
  proposeAndWait : ZeroProposal.t → Server → option error * Server;
  (** [s.Node.WaitLinearizableRead(ctx)] *)
  WaitLinearizableRead : option error;
  (** [s.orc.MaxPending()] *)
  MaxPending : Z
}.

(** What a request leaves behind: the server, the calls made on the
    connection pool, and the proposals handed to the consensus node. *)
Record World : Type := mkWorld {
  srv : Server;
  pool : list ConnOp;
  proposed : list ZeroProposal.t
}.

(** The order in which each [range] loop visits its map; [site] names the
    loop, and for a loop nested in a loop over groups, [gid] is the group
    of the outer iteration. *)
Record Sched : Type := mkSched {
  rangeGroups : nat → gmap Z Group.t → list (Z * Group.t);
  rangeMembers : nat → Z → gmap Z Member.t → list (Z * Member.t);
  rangeTablets : nat → Z → gmap string Tablet.t → list (string * Tablet.t)
}.

(** A schedule is admissible when every loop visits each entry once. *)
Record fair (σ : Sched) : Prop := mkFair {
  fairGroups : ∀ site m, rangeGroups σ site m ≡ₚ map_to_list m;
  fairMembers : ∀ site gid m, rangeMembers σ site gid m ≡ₚ map_to_list m;
  fairTablets : ∀ site gid m, rangeTablets σ site gid m ≡ₚ map_to_list m
}.

(** The schedule that visits every map in the order of [map_to_list]. *)
Definition inOrder : Sched :=
  mkSched (λ _ m, map_to_list m) (λ _ _ m, map_to_list m) (λ _ _ m, map_to_list m).

(** The schedule that visits every map in the opposite order. *)
Definition backwards : Sched :=
  mkSched (λ _ m, reverse (map_to_list m)) (λ _ _ m, reverse (map_to_list m))
          (λ _ _ m, reverse (map_to_list m)).

(** *** Init *)

Definition Init (numReplicas : Z) : Server :=
  {| NumReplicas := numReplicas;
     state := MembershipState.mk 0 (Some ∅) (Some ∅) 0 0 0 [];
     nextLeaseId := 1;
     nextTxnTs := 1;
     readOnlyTs := 0;
     nextGroup := 1 |}.

(** *** SetMembershipState *)

(** One iteration of the loop over [state.Groups]: connect to the members
    of [g], and give [g] a tablet map when it has none. The group is
    updated in place, under its own key. *)
Definition ensureTablets (g : Group.t) : Group.t :=
  match Group.Tablets g with
  | None => Group.withTablets g (Some ∅)
  | Some _ => g
  end.

Definition setGroup (σ : Sched) (acc : gmap Z Group.t * list ConnOp)
    (e : Z * Group.t) : gmap Z Group.t * list ConnOp :=
  let '(gid, g) := e in
  let conns :=
    (λ km : Z * Member.t, PoolConnect (Member.Addr km.2))
      <$> rangeMembers σ 0%nat gid (Go.entries (Group.Members g)) in
  (<[gid := ensureTablets g]> acc.1, acc.2 ++ conns).

Definition SetMembershipState (σ : Sched) (s : Server) (st : MembershipState.t)
    : Server * list ConnOp :=
  let st :=
    match MembershipState.Zeros st with
    | None => MembershipState.withZeros st (Some ∅)
    | Some _ => st
    end in
  let st :=
    match MembershipState.Groups st with
    | None => MembershipState.withGroups st (Some ∅)
    | Some _ => st
    end in
  let groups := Go.entries (MembershipState.Groups st) in
  let '(groups', conns) :=
    foldl (setGroup σ) (groups, []) (rangeGroups σ 0%nat groups) in
  let st := MembershipState.withGroups st (Some groups') in
  (setNextGroup (setState s st) (Go.uint32 (Go.len (MembershipState.Groups st) + 1)),
   conns).

(** *** removeZero *)

Definition removeZero (s : Server) (nodeId : Z) : Server * list ConnOp :=
  match Go.get (MembershipState.Zeros (state s)) nodeId with
  | None => (s, [])
  | Some m =>
    let st := state s in
    let st := MembershipState.withZeros st (Go.del nodeId (MembershipState.Zeros st)) in
    let st := MembershipState.withRemoved st (MembershipState.Removed st ++ [m]) in
    (setState s st, [PoolRemove (Member.Addr m)])
  end.

(** *** ServingTablet *)

(** The body of the loop over the groups: the loop over the tablets of
    [group], which returns the tablet stored under the key [tablet]. *)
Definition servingStep (σ : Sched) (site : nat) (tablet : string) (_ : unit)
    (e : Z * Group.t) : Go.step Tablet.t unit :=
  let '(gid, group) := e in
  match
    Go.forRange
      (λ (_ : unit) '(key, tab),
         if String.eqb key tablet then Go.Return tab else Go.Continue tt)
      tt (rangeTablets σ site gid (Go.entries (Group.Tablets group)))
  with
  | inl tab => Go.Return tab
  | inr _ => Go.Continue tt
  end.

Definition ServingTablet (σ : Sched) (site : nat) (s : Server) (tablet : string)
    : option Tablet.t :=
  match
    Go.forRange (servingStep σ site tablet) tt
      (rangeGroups σ site (Go.entries (MembershipState.Groups (state s))))
  with
  | inl tab => Some tab
  | inr _ => None
  end.

(** *** createProposals *)

Definition memberProposal (m : Member.t) : ZeroProposal.t :=
  ZeroProposal.mk None (Some m) None 0.
Definition snapshotProposal (gid ts : Z) : ZeroProposal.t :=
  ZeroProposal.mk (Some {[gid := ts]}) None None 0.
Definition tabletProposal (tb : Tablet.t) : ZeroProposal.t :=
  ZeroProposal.mk None None (Some tb) 0.

(** The condition under which a reported tablet is proposed:
    [dstTablet.Remove || (s == 0 && d > 0) || (s > 0 && math.Abs(d/s-1) > 0.1)]
    with [s] and [d] the float64 conversions of the two sizes. *)
Definition tabletChanged (srcTablet dstTablet : Tablet.t) : bool :=
  let s := Go.float64 (Tablet.Space srcTablet) in
  let d := Go.float64 (Tablet.Space dstTablet) in
  Tablet.Remove dstTablet
  || ((s =? 0)%float && (0 <? d)%float)
  || ((0 <? s)%float && (Go.f0_1 <? abs (d / s - 1))%float).

Definition proposals : Type := list ZeroProposal.t * option error.

(** The body of the loop over [dst.Members]. *)
Definition memberStep (s : Server) (dst : Group.t) (res : list ZeroProposal.t)
    (e : Z * Member.t) : Go.step proposals (list ZeroProposal.t) :=
  let '(mid, dstMember) := e in
  match Go.get (MembershipState.Groups (state s)) (Member.GroupId dstMember) with
  | None => Go.Return (res, Some errUnknownMember)
  | Some group =>
    match Go.get (Group.Members group) mid with
    | None => Go.Return (res, Some errUnknownMember)
    | Some srcMember =>
      let res :=
        if negb (String.eqb (Member.Addr srcMember) (Member.Addr dstMember))
           || negb (Bool.eqb (Member.Leader srcMember) (Member.Leader dstMember))
        then res ++ [memberProposal dstMember]
        else res in
      if negb (Member.Leader dstMember) then Go.Return (res, None)
      else
        let res :=
          if Group.SnapshotTs group <? Group.SnapshotTs dst
          then res ++ [snapshotProposal (Member.GroupId dstMember) (Group.SnapshotTs dst)]
          else res in
        Go.Continue res
    end
  end.

(** The body of the loop over [dst.Tablets]. The proposal carries the
    reported tablet with its [Force] flag cleared. *)
Definition tabletStep (s : Server) (res : list ZeroProposal.t)
    (e : string * Tablet.t) : Go.step proposals (list ZeroProposal.t) :=
  let '(key, dstTablet) := e in
  match Go.get (MembershipState.Groups (state s)) (Tablet.GroupId dstTablet) with
  | None => Go.Return (res, Some errUnknownMember)
  | Some group =>
    match Go.get (Group.Tablets group) key with
    | None => Go.Continue res
    | Some srcTablet =>
      if tabletChanged srcTablet dstTablet
      then Go.Continue (res ++ [tabletProposal (Tablet.withForce dstTablet false)])
      else Go.Continue res
    end
  end.

Definition createProposals (σ : Sched) (s : Server) (dst : Group.t) : proposals :=
  let res := [] in
  if 1 <? Go.len (Group.Members dst)
  then (res, Some (Errorf "Create Proposal: Invalid group"))
  else
    match
      Go.forRange (memberStep s dst) res
        (rangeMembers σ 1%nat 0 (Go.entries (Group.Members dst)))
    with
    | inl r => r
    | inr res =>
      match
        Go.forRange (tabletStep s) res
          (rangeTablets σ 1%nat 0 (Go.entries (Group.Tablets dst)))
      with
      | inl r => r
      | inr res => (res, None)
      end
    end.

(** The proposals a loop of createProposals holds when it ends, by a
    return or by running out of entries. *)
Definition collected (x : proposals + list ZeroProposal.t) : list ZeroProposal.t :=
  match x with
  | inl (res, _) => res
  | inr res => res
  end.



(** *** Connect *)

Definition emptyConnectionState : ConnectionState.t :=
  ConnectionState.mk None None 0.

(** [proto.Clone(s.state)] *)
Definition membershipState (s : Server) : MembershipState.t := state s.

Definition latestMembershipState (E : Env) (s : Server)
    : option MembershipState.t * option error :=
  match WaitLinearizableRead E with
  | Some err => (None, Some err)
  | None => (Some (membershipState s), None)
  end.

(** The closure [createProposal] of [Connect]. It reads the server under
    its lock, may assign [m.Id] and [m.GroupId], and returns the proposal
    to submit ([None] for the nil proposal) with the member as it left it. *)
Definition createProposal (σ : Sched) (s : Server) (m : Member.t)
    : Server * Member.t * option ZeroProposal.t :=
  let groups := MembershipState.Groups (state s) in
  let proposal := ZeroProposal.zero in
  match
    Go.forRange
      (λ (_ : unit) '(_, group),
         match Go.get (Group.Members group) (Member.Id m) with
         | Some _ => Go.Return tt
         | None => Go.Continue tt
         end)
      tt (rangeGroups σ 3%nat (Go.entries groups))
  with
  | inl _ => (s, m, None)
  | inr _ =>
    let '(m, proposal) :=
      if Member.Id m =? 0
      then
        let m := Member.withId m (Go.uint64 (MembershipState.MaxRaftId (state s) + 1)) in
        (m, ZeroProposal.withMaxRaftId proposal (Member.Id m))
      else (m, proposal) in
    let preferred : option (Member.t * option ZeroProposal.t) :=
      if 0 <? Member.GroupId m
      then
        match Go.get groups (Member.GroupId m) with
        | None => Some (m, Some (ZeroProposal.withMember proposal m))
        | Some group =>
          match Go.get (Group.Members group) (Member.Id m) with
          | Some _ => Some (m, Some (ZeroProposal.withMember proposal m))
          | None =>
            if Go.len (Group.Members group) <? NumReplicas s
            then Some (m, Some (ZeroProposal.withMember proposal m))
            else None
          end
        end
      else None in
    match preferred with
    | Some (m, p) => (s, m, p)
    | None =>
      match
        Go.forRange
          (λ (_ : unit) '(gid, group),
             if Go.len (Group.Members group) <? NumReplicas s
             then
               let m := Member.withGroupId m gid in
               Go.Return (m, Some (ZeroProposal.withMember proposal m))
             else Go.Continue tt)
          tt (rangeGroups σ 4%nat (Go.entries groups))
      with
      | inl (m, p) => (s, m, p)
      | inr _ =>
        let m := Member.withGroupId m (nextGroup s) in
        (s, m, Some (ZeroProposal.withMember proposal m))
      end
    end
  end.

Definition reply (A : Type) : Type := (A * option error) * World.

Definition Connect (E : Env) (σ : Sched) (w : World) (m : Member.t)
    : reply ConnectionState.t :=
  let s := srv w in
  match ctxErr E with
  | Some err => ((emptyConnectionState, Some err), w)
  | None =>
    if Member.ClusterInfoOnly m
    then
      let '(ms, err) := latestMembershipState E s in
      ((ConnectionState.mk None ms (MaxPending E), err), w)
    else if (String.length (Member.Addr m) =? 0)%nat
    then ((emptyConnectionState, Some (Errorf "No address provided")), w)
    else
      match
        Go.forRange
          (λ (_ : unit) (member : Member.t),
             if negb (Member.GroupId member =? 0) && (Member.Id m =? Member.Id member)
             then Go.Return ErrReuseRemovedId
             else Go.Continue tt)
          tt (MembershipState.Removed (membershipState s))
      with
      | inl err => ((emptyConnectionState, Some err), w)
      | inr _ =>
        match
          Go.forRange
            (λ (_ : unit) '(_, group),
               match Go.get (Group.Members group) (Member.Id m) with
               | None => Go.Break tt
               | Some member =>
                 if negb (String.eqb (Member.Addr member) (Member.Addr m))
                    && healthy E (Member.Addr member)
                 then Go.Return ErrDuplicateRaftId
                 else Go.Continue tt
               end)
            tt (rangeGroups σ 2%nat (Go.entries (MembershipState.Groups (state s))))
        with
        | inl err => ((emptyConnectionState, Some err), w)
        | inr _ =>
          let pool' := pool w ++ [PoolConnect (Member.Addr m)] in
          let '(s, m, proposal) := createProposal σ s m in
          match proposal with
          | Some p =>
            let '(err, s') := proposeAndWait E p s in
            let w' := mkWorld s' pool' (proposed w ++ [p]) in
            match err with
            | Some err => ((emptyConnectionState, Some err), w')
            | None =>
              ((ConnectionState.mk (Some m) (Some (membershipState s')) 0, None), w')
            end
          | None =>
            ((ConnectionState.mk (Some m) (Some (membershipState s)) 0, None),
             mkWorld s pool' (proposed w))
          end
        end
      end
  end.

(** *** ShouldServe *)

Definition ShouldServe (E : Env) (σ : Sched) (w : World) (tablet : Tablet.t)
    : Go.result (option Tablet.t * option error) * World :=
  if (String.length (Tablet.Predicate tablet) =? 0)%nat
  then (Go.Returns (None, Some (Errorf "Tablet predicate is empty")), w)
  else if Tablet.GroupId tablet =? 0
  then (Go.Returns (None, Some (Errorf "Group ID is Zero")), w)
  else
    match ServingTablet σ 5%nat (srv w) (Tablet.Predicate tablet) with
    | Some tab => (Go.Returns (Some tab, None), w)
    | None =>
      let tablet := Tablet.withForce tablet false in
      let proposal := tabletProposal tablet in
      let '(err, s') := proposeAndWait E proposal (srv w) in
      let w' := mkWorld s' (pool w) (proposed w ++ [proposal]) in
      let failed :=
        match err with
        | None => None
        | Some err => if decide (err = errTabletAlreadyServed) then None else Some err
        end in
      match failed with
      | Some err => (Go.Returns (Some tablet, Some err), w')
      | None =>
        match ServingTablet σ 6%nat s' (Tablet.Predicate tablet) with
        | Some tab => (Go.Returns (Some tab, None), w')
        | None => (Go.Panics, w')
        end
      end
    end.

(** *** member, hasLeader, KnownGroups, Leader *)

(** The loop [for _, m := range members { if m.Addr == addr { return m } }]. *)
Definition memberAt (addr : string) (_ : unit) (e : Z * Member.t)
    : Go.step Member.t unit :=
  let '(_, m) := e in
  if String.eqb (Member.Addr m) addr then Go.Return m else Go.Continue tt.

(** [member]: the Zeros are searched first, then the members of every
    group. *)
Definition member (σ : Sched) (s : Server) (addr : string) : option Member.t :=
  match
    Go.forRange (memberAt addr) tt
      (rangeMembers σ 7%nat 0 (Go.entries (MembershipState.Zeros (state s))))
  with
  | inl m => Some m
  | inr _ =>
    match
      Go.forRange
        (λ (_ : unit) '(gid, g),
           match
             Go.forRange (memberAt addr) tt
               (rangeMembers σ 8%nat gid (Go.entries (Group.Members g)))
           with
           | inl m => Go.Return m
           | inr _ => Go.Continue tt
           end)
        tt (rangeGroups σ 8%nat (Go.entries (MembershipState.Groups (state s))))
    with
    | inl m => Some m
    | inr _ => None
    end
  end.

Definition hasLeader (σ : Sched) (s : Server) (gid : Z) : bool :=
  match Go.get (MembershipState.Groups (state s)) gid with
  | None => false
  | Some group =>
    match
      Go.forRange
        (λ (_ : unit) '(_, m),
           if Member.Leader m then Go.Return true else Go.Continue tt)
        tt (rangeMembers σ 9%nat gid (Go.entries (Group.Members group)))
    with
    | inl b => b
    | inr _ => false
    end
  end.

Definition KnownGroups (σ : Sched) (s : Server) : list Z :=
  foldl (λ groups (e : Z * Group.t), groups ++ [e.1]) []
    (rangeGroups σ 10%nat (Go.entries (MembershipState.Groups (state s)))).

(** The body of the loop of [Leader] over the members: [healthyPool] is
    the loop state. A pool is named by the address it connects to. *)
Definition leaderStep (E : Env) (healthyPool : option string) (e : Z * Member.t)
    : Go.step string (option string) :=
  let '(_, m) := e in
  if healthy E (Member.Addr m)
  then
    if Member.Leader m then Go.Return (Member.Addr m)
    else Go.Continue (Some (Member.Addr m))
  else Go.Continue healthyPool.

(** [Leader]: the members searched are the Zeros for group 0, the members
    of the group otherwise; [None] is the nil pool. *)
Definition Leader (E : Env) (σ : Sched) (s : Server) (gid : Z) : option string :=
  let members :=
    if gid =? 0 then Some (MembershipState.Zeros (state s))
    else Group.Members <$> Go.get (MembershipState.Groups (state s)) gid in
  match members with
  | None => None
  | Some members =>
    match
      Go.forRange (leaderStep E) None (rangeMembers σ 11%nat gid (Go.entries members))
    with
    | inl pl => Some pl
    | inr healthyPool => healthyPool
    end
  end.

(** *** storeZero, updateZeroLeader *)

(** [s.state.Zeros[m.Id] = m]: an assignment to an entry of a nil map
    panics. *)
Definition storeZero (s : Server) (m : Member.t) : Go.result Server :=
  match MembershipState.Zeros (state s) with
  | None => Go.Panics
  | Some zeros =>
    Go.Returns
      (setState s (MembershipState.withZeros (state s) (Some (<[Member.Id m := m]> zeros))))
  end.

Definition setLeader (m : Member.t) (leader : bool) : Member.t :=
  Member.mk (Member.Id m) (Member.GroupId m) (Member.Addr m) leader
    (Member.AmDead m) (Member.ClusterInfoOnly m).

(** [updateZeroLeader]; [leader] is [s.Node.Raft().Status().Lead]. Every
    Zero is updated in place, under its own key. *)
Definition updateZeroLeader (σ : Sched) (leader : Z) (s : Server) : Server :=
  match MembershipState.Zeros (state s) with
  | None => s
  | Some zeros =>
    setState s
      (MembershipState.withZeros (state s)
         (Some (foldl (λ zs (e : Z * Member.t),
                         <[e.1 := setLeader e.2 (Member.Id e.2 =? leader)]> zs)
                      zeros (rangeMembers σ 12%nat 0 zeros))))
  end.

(** *** removeNode *)

(** [ProposePeerRemoval] is [s.Node.ProposePeerRemoval(ctx, nodeId)]: the
    error it returns and the state the server is in when it returns. *)
Definition removeNode (E : Env) (ProposePeerRemoval : Z → Server → option error * Server)
    (w : World) (nodeId groupId : Z) : option error * World :=
  if groupId =? 0
  then
    let '(err, s') := ProposePeerRemoval nodeId (srv w) in
    (err, mkWorld s' (pool w) (proposed w))
  else
    let zp :=
      ZeroProposal.mk None (Some (Member.mk nodeId groupId "" false true false)) None 0 in
    match Go.get (MembershipState.Groups (state (srv w))) groupId with
    | None => (Some (Errorf "No group with groupId found"), w)
    | Some group =>
      match Go.get (Group.Members group) nodeId with
      | None => (Some (Errorf "No node with nodeId found in group"), w)
      | Some _ =>
        let '(err, s') := proposeAndWait E zp (srv w) in
        (err, mkWorld s' (pool w) (proposed w ++ [zp]))
      end
    end.

(** *** Predicates used in the statements *)

(** The group a member asks for is not available: it asks for none, or
    the group is full and does not hold the identity. *)
Definition declined (s : Server) (asked id : Z) : Prop :=
  asked ≤ 0
  ∨ ∃ g, Go.get (MembershipState.Groups (state s)) asked = Some g
         ∧ Go.get (Group.Members g) id = None
         ∧ NumReplicas s ≤ Go.len (Group.Members g).

(** Where createProposal places a member: in the group it asks for when
    that group is missing, holds the identity or has room; otherwise in a
    group with room; otherwise in the group numbered [nextGroup]. *)
Inductive placement (s : Server) (asked : Z) (id : Z) (gid : Z) : Prop :=
| placeAsked :
    gid = asked → 0 < asked →
    (Go.get (MembershipState.Groups (state s)) asked = None
     ∨ ∃ g, Go.get (MembershipState.Groups (state s)) asked = Some g
            ∧ (is_Some (Go.get (Group.Members g) id)
               ∨ Go.len (Group.Members g) < NumReplicas s)) →
    placement s asked id gid
| placeRoom g :
    declined s asked id →
    Go.get (MembershipState.Groups (state s)) gid = Some g →
    Go.len (Group.Members g) < NumReplicas s →
    placement s asked id gid
| placeNew :
    declined s asked id →
    gid = nextGroup s →
    (∀ gid' g, Go.get (MembershipState.Groups (state s)) gid' = Some g →
               NumReplicas s ≤ Go.len (Group.Members g)) →
    placement s asked id gid.

(** ** Inputs used in the examples below *)




(** A state whose only group was decoded without members and tablets. *)
Definition bareGroupState : MembershipState.t :=
  MembershipState.mk 0 (Some {[1 := Group.mk None None 7]}) None 0 0 0 [].

Definition node1 : Member.t := Member.mk 0 0 "n1:7080" false false false.

(** A cluster of one group: group 1, led by member 1, serving the tablet
    "name" of size 100, with snapshot timestamp 5. *)
Definition alpha (leader : bool) : Member.t :=
  Member.mk 1 1 "a1:7080" leader false false.

Definition nameTablet (space : Z) : Tablet.t :=
  Tablet.mk 1 "name" false space false false.

Definition cluster : Server :=
  {| NumReplicas := 1;
     state :=
       MembershipState.mk 0
         (Some {[1 := Group.mk (Some {[1 := alpha true]})
                               (Some {["name" := nameTablet 100]}) 5]})
         (Some ∅) 0 0 1 [];
     nextLeaseId := 1;
     nextTxnTs := 1;
     readOnlyTs := 0;
     nextGroup := 2 |}.

(** Member 1 of group 1 asking to connect from another address. *)
Definition movedAlpha : Member.t := Member.mk 1 1 "a1:9090" true false false.

(** A cluster of two groups: group 1 with member 1, group 2 with member 7. *)
Definition beta : Member.t := Member.mk 7 2 "b7:7080" true false false.

Definition twoGroups : Server :=
  {| NumReplicas := 1;
     state :=
       MembershipState.mk 0
         (Some {[1 := Group.mk (Some {[1 := alpha true]}) (Some ∅) 0;
                 2 := Group.mk (Some {[7 := beta]}) (Some ∅) 0]})
         (Some ∅) 0 0 7 [];
     nextLeaseId := 1;
     nextTxnTs := 1;
     readOnlyTs := 0;
     nextGroup := 3 |}.

(** A second node asking to connect under the identity of member 7. *)
Definition otherBeta : Member.t := Member.mk 7 2 "b7:9090" false false false.

(** Collaborators that report no error: every address has a healthy pool
    or none has, and a proposal returns without changing the state. *)
Definition quietEnv (reachable : bool) : Env :=
  mkEnv None (λ _, reachable) (λ _ s, (None, s)) None 0.

(** Collaborators whose consensus node answers with [err] and leaves the
    server in state [s']. *)
Definition answeringEnv (err : option error) (s' : Server) : Env :=
  mkEnv None (λ _, true) (λ _ _, (err, s')) None 0.

Definition world0 (s : Server) : World := mkWorld s [] [].

(** The cluster of one group before any tablet is served. *)
Definition noTablets : Server :=
  {| NumReplicas := 1;
     state :=
       MembershipState.mk 0
         (Some {[1 := Group.mk (Some {[1 := alpha true]}) (Some ∅) 5]})
         (Some ∅) 0 0 1 [];
     nextLeaseId := 1;
     nextTxnTs := 1;
     readOnlyTs := 0;
     nextGroup := 2 |}.

(** The report of member 1 of group 1: whether it leads, the size of the
    tablet "name", and the snapshot timestamp. *)
Definition report (leader : bool) (space ts : Z) : Group.t :=
  Group.mk (Some {[1 := alpha leader]}) (Some {["name" := nameTablet space]}) ts.

(** * Properties *)

(** ** Loops over maps *)

Section Ranges.
Context {K V : Type} `{Countable K}.
Implicit Types (m : gmap K V) (l : list (K * V)).

Lemma range_elem_of l m k v :
  l ≡ₚ map_to_list m → (k, v) ∈ l ↔ m !! k = Some v.
Proof. intros Hl. rewrite Hl. apply elem_of_map_to_list. Qed.

Lemma range_NoDup l m : l ≡ₚ map_to_list m → NoDup l.*1.
Proof. intros Hl. rewrite Hl. apply NoDup_fst_map_to_list. Qed.

Lemma range_to_map l m : l ≡ₚ map_to_list m → list_to_map l = m.
Proof.
  intros Hl. rewrite <- (list_to_map_to_list m).
  apply list_to_map_proper; [by eapply range_NoDup | done].
Qed.

(** Updating every visited entry under its own key maps the update over
    the entries, whatever the order of the visit. *)
Lemma foldl_insert_lookup (f : V → V) l (acc : gmap K V) k :
  NoDup l.*1 →
  foldl (λ a e, <[e.1 := f e.2]> a) acc l !! k
  = match (list_to_map l : gmap K V) !! k with
    | Some v => Some (f v)
    | None => acc !! k
    end.
Proof.
  revert acc. induction l as [|[k' v'] l IH]; intros acc Hnd; simpl.
  - by rewrite lookup_empty.
  - apply NoDup_cons in Hnd as [Hk' Hnd]. rewrite IH by done.
    destruct (decide (k = k')) as [->|Hne].
    + rewrite (not_elem_of_list_to_map_1 _ _ Hk').
      by rewrite !lookup_insert_eq.
    + by rewrite !lookup_insert_ne.
Qed.

Lemma foldl_insert_fmap (f : V → V) l m :
  l ≡ₚ map_to_list m →
  foldl (λ a e, <[e.1 := f e.2]> a) m l = f <$> m.
Proof.
  intros Hl. apply map_eq; intros k.
  rewrite foldl_insert_lookup by (by eapply range_NoDup).
  rewrite (range_to_map _ _ Hl), lookup_fmap.
  by destruct (m !! k).
Qed.

(** Searching the visited entries for a key is a lookup. *)
Lemma forRange_find l m (key : K) :
  l ≡ₚ map_to_list m →
  Go.forRange
    (λ (_ : unit) (e : K * V),
       if bool_decide (e.1 = key) then Go.Return e.2 else Go.Continue tt) tt l
  = match m !! key with Some v => inl v | None => inr tt end.
Proof.
  intros Hl. pose proof (range_NoDup _ _ Hl) as Hnd.
  rewrite <- (range_to_map _ _ Hl). clear Hl.
  induction l as [|[k v] l IH]; simpl; [done|].
  apply NoDup_cons in Hnd as [Hk Hnd].
  case_bool_decide as Hkey; simplify_eq/=.
  - by rewrite lookup_insert_eq.
  - rewrite lookup_insert_ne by done. by apply IH.
Qed.
End Ranges.


Lemma fair_backwards : fair backwards.
Proof. split; intros; simpl; apply reverse_Permutation. Qed.

(** ** SetMembershipState *)

Lemma setGroup_groups σ l acc :
  (foldl (setGroup σ) acc l).1
  = foldl (λ a e, <[e.1 := ensureTablets e.2]> a) acc.1 l.
Proof.
  revert acc. induction l as [|[gid g] l IH]; intros acc; simpl; [done|].
  by rewrite IH.
Qed.

(** The state a replacement installs: the given one, with the nil maps of
    the state and the nil tablet map of every group allocated. *)
Lemma SetMembershipState_state σ s st :
  fair σ →
  state (SetMembershipState σ s st).1
  = MembershipState.mk (MembershipState.Counter st)
      (Some (ensureTablets <$> Go.entries (MembershipState.Groups st)))
      (Some (Go.entries (MembershipState.Zeros st)))
      (MembershipState.MaxLeaseId st) (MembershipState.MaxTxnTs st)
      (MembershipState.MaxRaftId st) (MembershipState.Removed st).
Proof.
  intros Hσ. unfold SetMembershipState.
  set (st1 := match MembershipState.Zeros st with
              | None => _ | Some _ => _ end).
  set (st2 := match MembershipState.Groups st1 with
              | None => _ | Some _ => _ end).
  set (groups := Go.entries (MembershipState.Groups st2)).
  pose proof (setGroup_groups σ (rangeGroups σ 0%nat groups) (groups, [])) as Hf.
  destruct (foldl _ _ _) as [groups' conns]; simpl in *. subst groups'.
  rewrite foldl_insert_fmap by apply Hσ.
  subst groups st2 st1.
  by destruct st as [? [?|] [?|] ? ? ? ?].
Qed.



Lemma forRange_all_continue {R A E : Type} (body : A → E → Go.step R A) a l :
  (∀ e, e ∈ l → body a e = Go.Continue a) → Go.forRange body a l = inr a.
Proof.
  induction l as [|e l IH]; intros Hall; simpl; [done|].
  rewrite Hall by apply list_elem_of_here.
  apply IH. intros e' He'. apply Hall. by apply list_elem_of_further.
Qed.

Lemma forRange_ext {R A E : Type} (body body' : A → E → Go.step R A) a l :
  (∀ a e, e ∈ l → body a e = body' a e) →
  Go.forRange body a l = Go.forRange body' a l.
Proof.
  revert a. induction l as [|e l IH]; intros a Hext; simpl; [done|].
  rewrite Hext by apply list_elem_of_here.
  destruct (body' a e); try done.
  apply IH. intros a' e' He'. apply Hext. by apply list_elem_of_further.
Qed.

(** ** Connect: the proposal it creates *)

Lemma createProposal_server σ s m : (createProposal σ s m).1.1 = s.
Proof.
  unfold createProposal.
  destruct (Go.forRange _ tt (rangeGroups σ 3%nat _)); [done|].
  destruct (Member.Id m =? 0);
    (destruct (if 0 <? _ then _ else _) as [[? ?]|]; [done|]);
    by destruct (Go.forRange _ tt (rangeGroups σ 4%nat _)) as [[? ?]|].
Qed.







(** C3 (amended). In the state a wholesale replacement installs, the
    Zeros and Groups maps are allocated and every group has an allocated
    tablet map; the groups are those of the given state, each with its
    member map and snapshot timestamp as given (a nil member map stays
    nil). The state Init creates has allocated, empty Zeros and Groups. *)
Theorem SetMembershipState_maps σ s st :
  fair σ →
  let st' := state (SetMembershipState σ s st).1 in
  is_Some (MembershipState.Zeros st')
  ∧ is_Some (MembershipState.Groups st')
  ∧ (∀ gid g', Go.get (MembershipState.Groups st') gid = Some g' →
       is_Some (Group.Tablets g')
       ∧ ∃ g, Go.get (MembershipState.Groups st) gid = Some g
              ∧ Group.Members g' = Group.Members g
              ∧ Group.SnapshotTs g' = Group.SnapshotTs g
              ∧ Go.entries (Group.Tablets g') = Go.entries (Group.Tablets g))
  ∧ (∀ gid g, Go.get (MembershipState.Groups st) gid = Some g →
       is_Some (Go.get (MembershipState.Groups st') gid))
  ∧ (∀ n, MembershipState.Zeros (state (Init n)) = Some ∅
          ∧ MembershipState.Groups (state (Init n)) = Some ∅).
Proof.
  intros Hσ st'. subst st'. rewrite SetMembershipState_state by done. simpl.
  split; [eexists; reflexivity|]. split; [eexists; reflexivity|].
  split; [|split; [|done]].
  - intros gid g' Hg'. unfold Go.get in Hg'; simpl in Hg'.
    rewrite lookup_fmap in Hg'.
    destruct (Go.entries (MembershipState.Groups st) !! gid) as [g|] eqn:Hg;
      simplify_eq/=.
    split.
    + unfold ensureTablets. destruct g as [ms [ts|] ts0]; eexists; reflexivity.
    + exists g. split; [done|].
      unfold ensureTablets.
      destruct g as [ms [ts|] ts0]; repeat split; reflexivity.
  - intros gid g Hg. unfold Go.get in *; simpl.
    rewrite lookup_fmap, Hg. by eexists.
Qed.

Lemma SetMembershipState_maps_witness :
  fair inOrder
  ∧ is_Some (MembershipState.Zeros
               (state (SetMembershipState inOrder (Init 1) bareGroupState).1)).
Proof.
  split; [by split|].
  apply (SetMembershipState_maps inOrder (Init 1) bareGroupState). by split.
Defined.

(** C3, as stated, fails at a group given without a member map: the group
    is installed with a tablet map and still without a member map. *)
Lemma SetMembershipState_members_stay_nil :
  Go.get
    (MembershipState.Groups
       (state (SetMembershipState inOrder (Init 1) bareGroupState).1)) 1
  = Some (Group.mk None (Some ∅) 7).
Proof. vm_compute. reflexivity. Qed.

(** ** removeZero *)

(** C10. For an identity absent from Zeros, removeZero leaves the server
    as it is and calls nothing. For an identity present, it deletes that
    entry and no other from Zeros, appends that member to the removed
    history, and leaves every other field of the state and of the server
    unchanged. *)
Theorem removeZero_frame s nodeId :
  let s' := (removeZero s nodeId).1 in
  let st := state s in
  let st' := state s' in
  match Go.get (MembershipState.Zeros st) nodeId with
  | None => removeZero s nodeId = (s, [])
  | Some m =>
    Go.get (MembershipState.Zeros st') nodeId = None
    ∧ (∀ k, k ≠ nodeId →
         Go.get (MembershipState.Zeros st') k = Go.get (MembershipState.Zeros st) k)
    ∧ is_Some (MembershipState.Zeros st')
    ∧ MembershipState.Removed st' = MembershipState.Removed st ++ [m]
    ∧ MembershipState.Groups st' = MembershipState.Groups st
    ∧ MembershipState.Counter st' = MembershipState.Counter st
    ∧ MembershipState.MaxLeaseId st' = MembershipState.MaxLeaseId st
    ∧ MembershipState.MaxTxnTs st' = MembershipState.MaxTxnTs st
    ∧ MembershipState.MaxRaftId st' = MembershipState.MaxRaftId st
    ∧ setState s' st = s
    ∧ (removeZero s nodeId).2 = [PoolRemove (Member.Addr m)]
  end.
Proof.
  intros s' st st'. subst s' st st'. unfold removeZero.
  destruct (Go.get (MembershipState.Zeros (state s)) nodeId) as [m|] eqn:Hm;
    [|done].
  destruct s as [nr [c gs zs ml mt mr rm] nl nt ro ng]; simpl in *.
  unfold Go.get in *; simpl in *.
  destruct zs as [zs|]; simpl in *; [|by rewrite lookup_empty in Hm].
  repeat split; try done.
  - apply lookup_delete_eq.
  - intros k Hk. by apply lookup_delete_ne.
Qed.

(** ** createProposals *)

Lemma range_at_most_one {K V} `{Countable K} (l : list (K * V)) (m : gmap K V) :
  l ≡ₚ map_to_list m → (size m ≤ 1)%nat →
  l = [] ∧ m = ∅
  ∨ ∃ k v, l = [(k, v)] ∧ ∀ k' v', m !! k' = Some v' ↔ k' = k ∧ v' = v.
Proof.
  intros Hl Hsize. rewrite <- length_map_to_list, <- Hl in Hsize.
  destruct l as [|[k v] [|e l]]; simpl in Hsize; [| |lia].
  - left. split; [done|]. symmetry in Hl.
    apply Permutation_nil_r in Hl. by apply map_to_list_empty_iff.
  - right. exists k, v. split; [done|]. intros k' v'.
    rewrite <- (range_elem_of _ _ _ _ Hl), list_elem_of_singleton.
    split; [by intros [= -> ->]|by intros [-> ->]].
Qed.

Lemma len_le_1 {K V} `{Countable K} (m : option (gmap K V)) :
  (1 <? Go.len m) = false → (size (Go.entries m) ≤ 1)%nat.
Proof. unfold Go.len. intros Hlt%Z.ltb_ge. lia. Qed.

(** A proposal the loop over the reported tablets adds stands for a
    reported tablet that its group knows and that changed. *)
Lemma tabletLoop_sound s l res p :
  p ∈ collected (Go.forRange (tabletStep s) res l) →
  p ∈ res
  ∨ ∃ key dstTablet group srcTablet,
      (key, dstTablet) ∈ l
      ∧ Go.get (MembershipState.Groups (state s)) (Tablet.GroupId dstTablet) = Some group
      ∧ Go.get (Group.Tablets group) key = Some srcTablet
      ∧ tabletChanged srcTablet dstTablet = true
      ∧ p = tabletProposal (Tablet.withForce dstTablet false).
Proof.
  revert res. induction l as [|[key dstTablet] l IH]; intros res; simpl; [by left|].
  destruct (Go.get _ (Tablet.GroupId dstTablet)) as [group|] eqn:Hgroup;
    simpl; [|by left].
  destruct (Go.get (Group.Tablets group) key) as [srcTablet|] eqn:Hsrc.
  - destruct (tabletChanged srcTablet dstTablet) eqn:Hch.
    + intros [Hin|(k & d & g & t & Hin & ?)]%IH.
      * apply elem_of_app in Hin as [Hin|Hin%list_elem_of_singleton]; [by left|].
        right. exists key, dstTablet, group, srcTablet.
        split; [apply list_elem_of_here|done].
      * right. exists k, d, g, t. split; [by apply list_elem_of_further|done].
    + intros [Hin|(k & d & g & t & Hin & ?)]%IH; [by left|].
      right. exists k, d, g, t. split; [by apply list_elem_of_further|done].
  - intros [Hin|(k & d & g & t & Hin & ?)]%IH; [by left|].
    right. exists k, d, g, t. split; [by apply list_elem_of_further|done].
Qed.

(** The loop over the reported tablets drops nothing it was given. *)
Lemma tabletLoop_keeps s l res p :
  p ∈ res → p ∈ collected (Go.forRange (tabletStep s) res l).
Proof.
  revert res. induction l as [|[key dstTablet] l IH]; intros res Hin; simpl; [done|].
  destruct (Go.get _ (Tablet.GroupId dstTablet)) as [group|]; simpl; [|done].
  destruct (Go.get (Group.Tablets group) key) as [srcTablet|]; [|by apply IH].
  destruct (tabletChanged srcTablet dstTablet); apply IH; [|done].
  apply elem_of_app. by left.
Qed.

(** When the loop over the reported tablets runs to its end, it has added
    a proposal for every reported tablet that its group knows and that
    changed. *)
Lemma tabletLoop_complete s l res r key dstTablet group srcTablet :
  Go.forRange (tabletStep s) res l = inr r →
  (key, dstTablet) ∈ l →
  Go.get (MembershipState.Groups (state s)) (Tablet.GroupId dstTablet) = Some group →
  Go.get (Group.Tablets group) key = Some srcTablet →
  tabletChanged srcTablet dstTablet = true →
  tabletProposal (Tablet.withForce dstTablet false) ∈ r.
Proof.
  revert res. induction l as [|[k d] l IH]; intros res Hrun Hin Hgroup Hsrc Hch.
  { by apply elem_of_nil in Hin. }
  simpl in Hrun.
  apply elem_of_cons in Hin as [[= <- <-]|Hin].
  - rewrite Hgroup, Hsrc, Hch in Hrun.
    pose proof (tabletLoop_keeps s l
                  (res ++ [tabletProposal (Tablet.withForce dstTablet false)])
                  (tabletProposal (Tablet.withForce dstTablet false))) as Hk.
    rewrite Hrun in Hk. apply Hk. apply elem_of_app. right. apply list_elem_of_here.
  - destruct (Go.get _ (Tablet.GroupId d)) as [g|]; simpl in Hrun; [|done].
    destruct (Go.get (Group.Tablets g) k) as [t|]; [|by eapply IH].
    destruct (tabletChanged t d); by eapply IH.
Qed.

Lemma collected_fst (x : proposals + list ZeroProposal.t) :
  (match x with inl r => r | inr res => (res, None) end).1 = collected x.
Proof. by destruct x as [[? ?]|?]. Qed.

(** What the loop over the reported members leaves for a report of one
    known member: a member proposal when address or leader flag differ,
    then, for a leader, a snapshot proposal when the reported timestamp is
    the larger one. *)
Lemma memberStep_known s dst mid m group srcMember :
  Go.get (MembershipState.Groups (state s)) (Member.GroupId m) = Some group →
  Go.get (Group.Members group) mid = Some srcMember →
  let res1 :=
    if negb (String.eqb (Member.Addr srcMember) (Member.Addr m))
       || negb (Bool.eqb (Member.Leader srcMember) (Member.Leader m))
    then [memberProposal m] else [] in
  memberStep s dst [] (mid, m)
  = if negb (Member.Leader m) then Go.Return (res1, None)
    else Go.Continue
           (if Group.SnapshotTs group <? Group.SnapshotTs dst
            then res1 ++ [snapshotProposal (Member.GroupId m) (Group.SnapshotTs dst)]
            else res1).
Proof.
  intros Hgroup Hsrc res1. subst res1. unfold memberStep.
  rewrite Hgroup, Hsrc. simpl.
  by destruct (negb _ || negb _).
Qed.

(** Every proposal of createProposals is justified by the report: a member
    proposal by a reported member, a snapshot proposal by a reported
    leader and a larger reported timestamp, a tablet proposal by a
    reported tablet that changed, in a report without a non-leader. *)
Lemma createProposals_sound σ s dst p :
  fair σ →
  p ∈ (createProposals σ s dst).1 →
  (∃ mid m, Go.get (Group.Members dst) mid = Some m ∧ p = memberProposal m)
  ∨ (∃ mid m group,
       Go.get (Group.Members dst) mid = Some m
       ∧ Member.Leader m = true
       ∧ Go.get (MembershipState.Groups (state s)) (Member.GroupId m) = Some group
       ∧ Group.SnapshotTs group < Group.SnapshotTs dst
       ∧ p = snapshotProposal (Member.GroupId m) (Group.SnapshotTs dst))
  ∨ ((∀ mid m, Go.get (Group.Members dst) mid = Some m → Member.Leader m = true)
     ∧ ∃ key dstTablet group srcTablet,
         Go.get (Group.Tablets dst) key = Some dstTablet
         ∧ Go.get (MembershipState.Groups (state s)) (Tablet.GroupId dstTablet)
           = Some group
         ∧ Go.get (Group.Tablets group) key = Some srcTablet
         ∧ tabletChanged srcTablet dstTablet = true
         ∧ p = tabletProposal (Tablet.withForce dstTablet false)).
Proof.
  intros Hσ. unfold createProposals.
  destruct (1 <? Go.len (Group.Members dst)) eqn:Hlen; simpl.
  { by intros ?%elem_of_nil. }
  assert (∀ res, p ∈ collected
            (Go.forRange (tabletStep s) res
               (rangeTablets σ 1%nat 0 (Go.entries (Group.Tablets dst)))) →
          p ∈ res
          ∨ ∃ key dstTablet group srcTablet,
              Go.get (Group.Tablets dst) key = Some dstTablet
              ∧ Go.get (MembershipState.Groups (state s)) (Tablet.GroupId dstTablet)
                = Some group
              ∧ Go.get (Group.Tablets group) key = Some srcTablet
              ∧ tabletChanged srcTablet dstTablet = true
              ∧ p = tabletProposal (Tablet.withForce dstTablet false)) as Htab.
  { intros res [Hin|(k & d & g & t & Hin & ?)]%tabletLoop_sound; [by left|].
    right. exists k, d, g, t. split; [|done].
    by apply (range_elem_of _ _ _ _ (fairTablets σ Hσ _ _ _)) in Hin. }
  destruct (range_at_most_one _ _ (fairMembers σ Hσ 1%nat 0 _) (len_le_1 _ Hlen))
    as [[-> Hnone]|(mid & m & -> & Hone)]; cbn [Go.forRange].
  - rewrite collected_fst. intros [?%elem_of_nil|Hin]%Htab; [done|].
    right; right. split; [|done].
    intros mid m Hm. unfold Go.get in Hm. by rewrite Hnone, lookup_empty in Hm.
  - pose proof (proj2 (Hone mid m) (conj eq_refl eq_refl)) as Hm.
    destruct (Go.get (MembershipState.Groups (state s)) (Member.GroupId m))
      as [group|] eqn:Hgroup;
      [|unfold memberStep; rewrite Hgroup; by intros ?%elem_of_nil].
    destruct (Go.get (Group.Members group) mid) as [srcMember|] eqn:Hsrc;
      [|unfold memberStep; rewrite Hgroup, Hsrc; by intros ?%elem_of_nil].
    rewrite (memberStep_known s dst mid m group srcMember Hgroup Hsrc). cbv zeta.
    set (res1 := if negb _ || negb _ then _ else _).
    assert (∀ q, q ∈ res1 → q = memberProposal m) as Hres1.
    { subst res1. intros q.
      destruct (negb _ || negb _); [by intros ?%list_elem_of_singleton|].
      by intros ?%elem_of_nil. }
    destruct (Member.Leader m) eqn:Hleader; cbn [negb].
    + rewrite collected_fst. intros [Hin|Hin]%Htab.
      * destruct (Group.SnapshotTs group <? Group.SnapshotTs dst) eqn:Hts.
        -- apply elem_of_app in Hin as [Hin|Hin%list_elem_of_singleton].
           ++ left. exists mid, m. split; [done|by apply Hres1].
           ++ right; left. exists mid, m, group.
              apply Z.ltb_lt in Hts. done.
        -- left. exists mid, m. split; [done|by apply Hres1].
      * right; right. split; [|done].
        intros mid' m' Hm'. by apply Hone in Hm' as [-> ->].
    + intros Hin. left. exists mid, m. split; [done|by apply Hres1].
Qed.

(** C6. When the reporting member is not flagged as leader, createProposals
    emits nothing or the one member-update proposal for that member,
    whatever tablets and snapshot timestamp the report carries: none of
    its proposals is a snapshot-advance or a tablet-update proposal. *)
Theorem createProposals_not_leader σ s dst mid m :
  fair σ →
  Go.get (Group.Members dst) mid = Some m →
  Member.Leader m = false →
  let res := (createProposals σ s dst).1 in
  (res = [] ∨ res = [memberProposal m])
  ∧ ∀ p, p ∈ res →
      ZeroProposal.SnapshotTs p = None
      ∧ ZeroProposal.Tablet p = None
      ∧ ZeroProposal.Member p = Some m.
Proof.
  intros Hσ Hm Hleader res.
  assert (res = [] ∨ res = [memberProposal m]) as Hres.
  { subst res. unfold createProposals.
    destruct (1 <? Go.len (Group.Members dst)) eqn:Hlen; [by left|].
    destruct (range_at_most_one _ _ (fairMembers σ Hσ 1%nat 0 _) (len_le_1 _ Hlen))
      as [[_ Hnone]|(mid' & m' & -> & Hone)].
    { unfold Go.get in Hm. by rewrite Hnone, lookup_empty in Hm. }
    apply Hone in Hm as [-> ->]. cbn [Go.forRange].
    destruct (Go.get (MembershipState.Groups (state s)) (Member.GroupId m'))
      as [group|] eqn:Hgroup;
      [|unfold memberStep; rewrite Hgroup; by left].
    destruct (Go.get (Group.Members group) mid') as [srcMember|] eqn:Hsrc;
      [|unfold memberStep; rewrite Hgroup, Hsrc; by left].
    rewrite (memberStep_known s dst mid' m' group srcMember Hgroup Hsrc). cbv zeta.
    rewrite Hleader. cbn [negb fst].
    destruct (negb _ || negb _); [by right|by left]. }
  split; [done|].
  intros p Hp. destruct Hres as [Hres|Hres]; rewrite Hres in Hp.
  - by apply elem_of_nil in Hp.
  - by apply list_elem_of_singleton in Hp as ->.
Qed.

Lemma createProposals_not_leader_witness :
  fair inOrder
  ∧ (createProposals inOrder cluster (report false 80 10)).1
    = [memberProposal (alpha false)].
Proof.
  split; [by split|].
  destruct (createProposals_not_leader inOrder cluster (report false 80 10) 1 (alpha false))
    as [Hres _]; [by split|reflexivity|reflexivity|].
  destruct Hres as [Hres|Hres]; [|exact Hres].
  vm_compute in Hres. discriminate Hres.
Defined.

(** *** Snapshot timestamps *)







(** *** Tablets *)

Lemma tabletLoop_error s l res r err :
  Go.forRange (tabletStep s) res l = inl (r, err) → err = Some errUnknownMember.
Proof.
  revert res. induction l as [|[k d] l IH]; intros res; simpl; [done|].
  destruct (Go.get _ (Tablet.GroupId d)) as [g|]; simpl; [|by intros [= _ <-]].
  destruct (Go.get (Group.Tablets g) k) as [t|]; [|by apply IH].
  destruct (tabletChanged t d); by apply IH.
Qed.

(** C4 (amended). Take a report that createProposals accepts, without a
    non-leader member. For a reported tablet whose key its authoritative
    group knows, and that differs from the tablets reported under the
    other keys (as it does when tablets are keyed by their predicate), the
    tablet-update proposal (the reported tablet, Force cleared) is emitted
    if and only if the tablet is marked for removal, or the prior space is
    zero and the new space is positive, or the prior space is positive and
    |new/prior - 1|, computed on the float64 conversions of the two
    spaces, exceeds the float64 constant 0.1. With prior space 100, new
    space 95 emits no proposal and new space 80 emits one. *)
Theorem createProposals_tablet σ s dst res key dstTablet group srcTablet :
  fair σ →
  createProposals σ s dst = (res, None) →
  (∀ mid m, Go.get (Group.Members dst) mid = Some m → Member.Leader m = true) →
  (∀ k t, Go.get (Group.Tablets dst) k = Some t →
          Tablet.withForce t false = Tablet.withForce dstTablet false → k = key) →
  Go.get (Group.Tablets dst) key = Some dstTablet →
  Go.get (MembershipState.Groups (state s)) (Tablet.GroupId dstTablet) = Some group →
  Go.get (Group.Tablets group) key = Some srcTablet →
  let prior := Go.float64 (Tablet.Space srcTablet) in
  let new := Go.float64 (Tablet.Space dstTablet) in
  (tabletProposal (Tablet.withForce dstTablet false) ∈ res
   ↔ Tablet.Remove dstTablet = true
     ∨ ((prior =? 0)%float = true ∧ (0 <? new)%float = true)
     ∨ ((0 <? prior)%float = true
        ∧ (Go.f0_1 <? abs (new / prior - 1))%float = true))
  ∧ createProposals inOrder cluster (report true 95 5) = ([], None)
  ∧ createProposals inOrder cluster (report true 80 5)
    = ([tabletProposal (nameTablet 80)], None).
Proof.
  intros Hσ Hrun Hleaders Hkeyed Hdst Hgroup Hsrc prior new.
  split; [|by vm_compute].
  transitivity (tabletChanged srcTablet dstTablet = true).
  2: { unfold tabletChanged. fold prior new.
       rewrite !orb_true_iff, !andb_true_iff. tauto. }
  split.
  - intros Hp.
    assert (res = (createProposals σ s dst).1) as Hres by by rewrite Hrun.
    rewrite Hres in Hp.
    apply (createProposals_sound σ s dst _ Hσ) in Hp
      as [(? & ? & _ & ?)|[(? & ? & ? & _ & _ & _ & _ & ?)
                          |(_ & k & d & g & t & Hd & Hg & Ht & Hch & Heq)]];
      [done|done|].
    assert (Tablet.withForce dstTablet false = Tablet.withForce d false) as Hwf
      by (unfold tabletProposal in Heq; congruence).
    assert (k = key) as -> by (by apply (Hkeyed k d)).
    by simplify_eq.
  - intros Hch. unfold createProposals in Hrun.
    destruct (1 <? Go.len (Group.Members dst)) eqn:Hlen; [done|].
    pose proof (proj2 (range_elem_of _ _ key dstTablet
                         (fairTablets σ Hσ 1%nat 0 (Go.entries (Group.Tablets dst))))
                  Hdst) as Hin.
    destruct (range_at_most_one _ _ (fairMembers σ Hσ 1%nat 0 _) (len_le_1 _ Hlen))
      as [[Hnil _]|(mid & m & Hone & Hm)].
    + rewrite Hnil in Hrun. cbn [Go.forRange] in Hrun.
      destruct (Go.forRange (tabletStep s) [] _) as [[r err]|r] eqn:Hloop.
      * apply tabletLoop_error in Hloop. by simplify_eq.
      * injection Hrun as <-. by eapply tabletLoop_complete.
    + rewrite Hone in Hrun. cbn [Go.forRange] in Hrun.
      pose proof (proj2 (Hm mid m) (conj eq_refl eq_refl)) as Hmid.
      destruct (Go.get (MembershipState.Groups (state s)) (Member.GroupId m))
        as [group'|] eqn:Hgroup';
        [|unfold memberStep in Hrun; by rewrite Hgroup' in Hrun].
      destruct (Go.get (Group.Members group') mid) as [srcMember|] eqn:Hsrc';
        [|unfold memberStep in Hrun; by rewrite Hgroup', Hsrc' in Hrun].
      rewrite (memberStep_known s dst mid m group' srcMember Hgroup' Hsrc') in Hrun.
      cbv zeta in Hrun. rewrite (Hleaders _ _ Hmid) in Hrun. cbn [negb] in Hrun.
      destruct (Go.forRange (tabletStep s) _ (rangeTablets _ _ _ _))
        as [[r err]|r] eqn:Hloop.
      * apply tabletLoop_error in Hloop. by simplify_eq.
      * injection Hrun as <-. by eapply tabletLoop_complete.
Qed.

Lemma createProposals_tablet_witness :
  fair inOrder
  ∧ createProposals inOrder cluster (report true 80 5)
    = ([tabletProposal (nameTablet 80)], None)
  ∧ (tabletProposal (Tablet.withForce (nameTablet 80) false)
     ∈ [tabletProposal (nameTablet 80)]
     ↔ Tablet.Remove (nameTablet 80) = true
       ∨ ((Go.float64 100 =? 0)%float = true ∧ (0 <? Go.float64 80)%float = true)
       ∨ ((0 <? Go.float64 100)%float = true
          ∧ (Go.f0_1 <? abs (Go.float64 80 / Go.float64 100 - 1))%float = true)).
Proof.
  split; [by split|]. split; [by vm_compute|].
  refine (proj1 (createProposals_tablet inOrder cluster (report true 80 5)
                   [tabletProposal (nameTablet 80)] "name" (nameTablet 80)
                   (Group.mk (Some {[1 := alpha true]})
                             (Some {["name" := nameTablet 100]}) 5)
                   (nameTablet 100) _ _ _ _ _ _ _)).
  - by split.
  - by vm_compute.
  - intros mid m Hm. unfold Go.get in Hm; simpl in Hm.
    by apply lookup_singleton_Some in Hm as [_ <-].
  - intros k t Ht _. unfold Go.get in Ht; simpl in Ht.
    by apply lookup_singleton_Some in Ht as [<- _].
  - reflexivity.
  - reflexivity.
  - reflexivity.
Defined.

(** C4, as stated, fails at prior space 100 and new space 110: the tablet
    is not marked for removal, its prior space is not zero, and its space
    changed by 10% of the prior value and no more, yet the tablet-update
    proposal is emitted, because the float64 quotient 110/100 less 1 is
    above the float64 constant 0.1. *)
Lemma createProposals_tablet_at_ten_percent :
  createProposals inOrder cluster (report true 110 5)
  = ([tabletProposal (nameTablet 110)], None)
  ∧ Tablet.Remove (nameTablet 110) = false
  ∧ Tablet.Space (nameTablet 100) = 100
  ∧ 10 * Z.abs (Tablet.Space (nameTablet 110) - Tablet.Space (nameTablet 100))
    = Z.abs (Tablet.Space (nameTablet 100)).
Proof. by vm_compute. Qed.

(** ** Connect *)

Lemma forRange_returns {R E : Type} (body : unit → E → Go.step R unit) r l :
  (∀ e, e ∈ l → body tt e = Go.Return r ∨ body tt e = Go.Continue tt) →
  (∃ e, e ∈ l ∧ body tt e = Go.Return r) →
  Go.forRange body tt l = inl r.
Proof.
  induction l as [|e l IH]; intros Hall (e' & He' & Hret); simpl.
  { by apply elem_of_nil in He'. }
  pose proof (Hall e (list_elem_of_here _ _)) as He.
  destruct (body tt e) as [r'|[]|[]] eqn:Hbody.
  - destruct He as [He|He]; congruence.
  - destruct He as [He|He]; congruence.
  - apply IH.
    + intros e'' He''. apply Hall. by apply list_elem_of_further.
    + exists e'. split; [|done].
      apply elem_of_cons in He' as [->|He']; [congruence|done].
Qed.

(** C2 (what the code does). For a member whose identity some group
    already holds, the closure [createProposal] of Connect creates no
    proposal and leaves the descriptor as it is, whether or not the
    address or another field of the descriptor differs from the member on
    record. *)
Theorem createProposal_known σ s m gid g member :
  fair σ →
  Go.get (MembershipState.Groups (state s)) gid = Some g →
  Go.get (Group.Members g) (Member.Id m) = Some member →
  createProposal σ s m = (s, m, None).
Proof.
  intros Hσ Hg Hmember. unfold createProposal.
  rewrite (forRange_returns _ tt); [done| |].
  - intros [gid' g'] _. destruct (Go.get (Group.Members g') (Member.Id m)); eauto.
  - exists (gid, g). split.
    + by apply (range_elem_of _ _ _ _ (fairGroups σ Hσ _ _)).
    + by rewrite Hmember.
Qed.

Lemma createProposal_known_witness :
  fair inOrder
  ∧ Go.get (Group.Members (Group.mk (Some {[1 := alpha true]})
                             (Some {["name" := nameTablet 100]}) 5))
      (Member.Id movedAlpha)
    = Some (alpha true)
  ∧ Member.Addr movedAlpha ≠ Member.Addr (alpha true)
  ∧ createProposal inOrder cluster movedAlpha = (cluster, movedAlpha, None).
Proof.
  split; [by split|]. split; [reflexivity|]. split; [by intros [=]|].
  apply (createProposal_known inOrder cluster movedAlpha 1
           (Group.mk (Some {[1 := alpha true]}) (Some {["name" := nameTablet 100]}) 5)
           (alpha true)).
  - by split.
  - reflexivity.
  - reflexivity.
Defined.

(** Connect as a whole on that request, the old address being
    unreachable: it succeeds, hands nothing to the consensus node, and the
    state it returns still records the old address. *)
Example Connect_moved_member :
  let '((resp, err), w) :=
    Connect (quietEnv false) inOrder (world0 cluster) movedAlpha in
  err = None
  ∧ proposed w = []
  ∧ ConnectionState.Member resp = Some movedAlpha
  ∧ ConnectionState.State resp = Some (state cluster).
Proof. by vm_compute. Qed.

(** C5 (what the code does). Member 7 of group 2 is on record at an
    address that has a healthy pool, and a request arrives under identity
    7 from another address. When the scan of the groups visits group 2
    first, Connect rejects the request as a duplicate and proposes
    nothing. When the scan visits group 1 first, which does not hold
    member 7, the scan stops there, and Connect answers without an error,
    with the state and the descriptor of the request. *)
Theorem Connect_duplicate_scan_order :
  Member.Addr otherBeta ≠ Member.Addr beta
  ∧ Go.get (MembershipState.Groups (state twoGroups)) 2
    = Some (Group.mk (Some {[7 := beta]}) (Some ∅) 0)
  ∧ healthy (quietEnv true) (Member.Addr beta) = true
  ∧ (rangeGroups inOrder 2%nat
       (Go.entries (MembershipState.Groups (state twoGroups)))).*1 = [2; 1]
  ∧ Connect (quietEnv true) inOrder (world0 twoGroups) otherBeta
    = ((emptyConnectionState, Some ErrDuplicateRaftId), world0 twoGroups)
  ∧ (rangeGroups backwards 2%nat
       (Go.entries (MembershipState.Groups (state twoGroups)))).*1 = [1; 2]
  ∧ Connect (quietEnv true) backwards (world0 twoGroups) otherBeta
    = ((ConnectionState.mk (Some otherBeta) (Some (state twoGroups)) 0, None),
       mkWorld twoGroups [PoolConnect (Member.Addr otherBeta)] []).
Proof. split; [by intros [=]|]. by vm_compute. Qed.

(** ** ServingTablet and ShouldServe *)

(** The loop over the tablets of one group finds the tablet under the
    requested key, if the group has one. *)
Lemma tabletScan σ site gid (tablets : gmap string Tablet.t) tablet :
  fair σ →
  Go.forRange
    (λ (_ : unit) '(key, tab),
       if String.eqb key tablet then Go.Return tab else Go.Continue tt)
    tt (rangeTablets σ site gid tablets)
  = match tablets !! tablet with Some tab => inl tab | None => inr tt end.
Proof.
  intros Hσ.
  rewrite <- (forRange_find _ _ tablet (fairTablets σ Hσ site gid tablets)).
  apply forRange_ext. intros [] [key tab] _; simpl.
  destruct (String.eqb_spec key tablet) as [->|Hne].
  - by rewrite bool_decide_eq_true_2.
  - by rewrite bool_decide_eq_false_2.
Qed.

Lemma servingScan σ site tablet l :
  fair σ →
  match Go.forRange (servingStep σ site tablet) tt l with
  | inl tab => ∃ gid g, (gid, g) ∈ l ∧ Go.get (Group.Tablets g) tablet = Some tab
  | inr _ => ∀ gid g, (gid, g) ∈ l → Go.get (Group.Tablets g) tablet = None
  end.
Proof.
  intros Hσ. induction l as [|[gid g] l IH]; simpl.
  { by intros gid g ?%elem_of_nil. }
  rewrite tabletScan by done.
  destruct (Go.entries (Group.Tablets g) !! tablet) as [tab|] eqn:Htab.
  { exists gid, g. split; [apply list_elem_of_here|done]. }
  destruct (Go.forRange (servingStep σ site tablet) tt l) as [tab|[]].
  - destruct IH as (gid' & g' & Hin & Hg'). exists gid', g'.
    split; [by apply list_elem_of_further|done].
  - intros gid' g' [[= -> ->]|Hin]%elem_of_cons; [done|by eapply IH].
Qed.

(** ServingTablet returns a tablet that some group holds under the key,
    and nil only when no group holds one. *)
Lemma ServingTablet_spec σ site s tablet :
  fair σ →
  match ServingTablet σ site s tablet with
  | Some tab =>
    ∃ gid g, Go.get (MembershipState.Groups (state s)) gid = Some g
             ∧ Go.get (Group.Tablets g) tablet = Some tab
  | None =>
    ∀ gid g, Go.get (MembershipState.Groups (state s)) gid = Some g →
             Go.get (Group.Tablets g) tablet = None
  end.
Proof.
  intros Hσ. unfold ServingTablet.
  pose proof (servingScan σ site tablet
                (rangeGroups σ site (Go.entries (MembershipState.Groups (state s))))
                Hσ) as Hscan.
  destruct (Go.forRange _ tt _) as [tab|[]].
  - destruct Hscan as (gid & g & Hin & Hg). exists gid, g. split; [|done].
    by apply (range_elem_of _ _ _ _ (fairGroups σ Hσ _ _)) in Hin.
  - intros gid g Hg. apply (Hscan gid g).
    by apply (range_elem_of _ _ _ _ (fairGroups σ Hσ _ _)).
Qed.

Lemma ServingTablet_owned σ site s tablet gid g tab :
  fair σ →
  Go.get (MembershipState.Groups (state s)) gid = Some g →
  Go.get (Group.Tablets g) tablet = Some tab →
  ∃ tab' gid' g',
    ServingTablet σ site s tablet = Some tab'
    ∧ Go.get (MembershipState.Groups (state s)) gid' = Some g'
    ∧ Go.get (Group.Tablets g') tablet = Some tab'.
Proof.
  intros Hσ Hg Htab.
  pose proof (ServingTablet_spec σ site s tablet Hσ) as Hspec.
  destruct (ServingTablet σ site s tablet) as [tab'|].
  - destruct Hspec as (gid' & g' & ? & ?). by exists tab', gid', g'.
  - rewrite (Hspec gid g Hg) in Htab. done.
Qed.

Lemma Predicate_nonempty (p : string) :
  p ≠ EmptyString → (String.length p =? 0)%nat = false.
Proof. by destruct p. Qed.

(** C8. For a request with a non-empty predicate and a nonzero group, when
    some group of the current state holds a tablet under the requested
    key, ShouldServe returns without an error a tablet that a group of the
    current state holds under that key, whatever group that is and
    whatever group the request names, and leaves the world as it is: the
    server state is unchanged and nothing is handed to the consensus
    node. *)
Theorem ShouldServe_owned E σ w tablet gid g tab :
  fair σ →
  Tablet.Predicate tablet ≠ EmptyString →
  Tablet.GroupId tablet ≠ 0 →
  Go.get (MembershipState.Groups (state (srv w))) gid = Some g →
  Go.get (Group.Tablets g) (Tablet.Predicate tablet) = Some tab →
  ∃ tab' gid' g',
    ShouldServe E σ w tablet = (Go.Returns (Some tab', None), w)
    ∧ Go.get (MembershipState.Groups (state (srv w))) gid' = Some g'
    ∧ Go.get (Group.Tablets g') (Tablet.Predicate tablet) = Some tab'.
Proof.
  intros Hσ Hpred Hgid Hg Htab. unfold ShouldServe.
  rewrite Predicate_nonempty by done.
  rewrite (proj2 (Z.eqb_neq _ _) Hgid).
  destruct (ServingTablet_owned σ 5%nat (srv w) _ gid g tab Hσ Hg Htab)
    as (tab' & gid' & g' & -> & ? & ?).
  by exists tab', gid', g'.
Qed.

Lemma ShouldServe_owned_witness :
  fair inOrder
  ∧ ShouldServe (quietEnv true) inOrder (world0 cluster)
      (Tablet.mk 9 "name" true 0 false false)
    = (Go.Returns (Some (nameTablet 100), None), world0 cluster).
Proof.
  split; [by split|].
  destruct (ShouldServe_owned (quietEnv true) inOrder (world0 cluster)
              (Tablet.mk 9 "name" true 0 false false) 1
              (Group.mk (Some {[1 := alpha true]}) (Some {["name" := nameTablet 100]}) 5)
              (nameTablet 100))
    as (tab' & gid' & g' & Heq & _ & _);
    [by split|by intros [=]|by intros [=]|reflexivity|reflexivity|].
  rewrite Heq. vm_compute in Heq. by injection Heq as <-.
Defined.

(** C9. For a request with a non-empty predicate and a nonzero group whose
    key no group holds, ShouldServe hands the tablet-creation proposal
    (the request, Force cleared) to the consensus node. When the node
    answers with no error or with the already-served error, and the state
    it leaves holds a tablet under the key (the proposal, or a racing one,
    was committed), ShouldServe returns without an error a tablet held
    under the key in that state: the answer is the same for the two
    outcomes, and the assertion after the proposal does not fail. *)
Theorem ShouldServe_claims E σ w tablet err s' gid g tab :
  fair σ →
  Tablet.Predicate tablet ≠ EmptyString →
  Tablet.GroupId tablet ≠ 0 →
  (∀ gid g, Go.get (MembershipState.Groups (state (srv w))) gid = Some g →
            Go.get (Group.Tablets g) (Tablet.Predicate tablet) = None) →
  proposeAndWait E (tabletProposal (Tablet.withForce tablet false)) (srv w)
  = (err, s') →
  err = None ∨ err = Some errTabletAlreadyServed →
  Go.get (MembershipState.Groups (state s')) gid = Some g →
  Go.get (Group.Tablets g) (Tablet.Predicate tablet) = Some tab →
  ∃ tab' gid' g',
    ShouldServe E σ w tablet
    = (Go.Returns (Some tab', None),
       mkWorld s' (pool w)
         (proposed w ++ [tabletProposal (Tablet.withForce tablet false)]))
    ∧ ServingTablet σ 6%nat s' (Tablet.Predicate tablet) = Some tab'
    ∧ Go.get (MembershipState.Groups (state s')) gid' = Some g'
    ∧ Go.get (Group.Tablets g') (Tablet.Predicate tablet) = Some tab'.
Proof.
  intros Hσ Hpred Hgid Hfree Hnode Herr Hg Htab. unfold ShouldServe.
  rewrite Predicate_nonempty by done.
  rewrite (proj2 (Z.eqb_neq _ _) Hgid).
  pose proof (ServingTablet_spec σ 5%nat (srv w) (Tablet.Predicate tablet) Hσ)
    as Hbefore.
  destruct (ServingTablet σ 5%nat (srv w) (Tablet.Predicate tablet)) as [tab0|].
  { destruct Hbefore as (gid0 & g0 & Hg0 & Htab0).
    by rewrite (Hfree gid0 g0 Hg0) in Htab0. }
  rewrite Hnode.
  destruct (ServingTablet_owned σ 6%nat s' (Tablet.Predicate tablet) gid g tab
              Hσ Hg Htab) as (tab' & gid' & g' & Hafter & ? & ?).
  exists tab', gid', g'. split; [|done].
  cbn [Tablet.Predicate Tablet.withForce]. rewrite Hafter.
  by destruct Herr as [-> | ->].
Qed.

Lemma ShouldServe_claims_witness :
  fair inOrder
  ∧ ShouldServe (answeringEnv (Some errTabletAlreadyServed) cluster) inOrder
      (world0 noTablets) (Tablet.mk 1 "name" true 0 false false)
    = (Go.Returns (Some (nameTablet 100), None),
       mkWorld cluster [] [tabletProposal (nameTablet 0)])
  ∧ ShouldServe (answeringEnv None cluster) inOrder
      (world0 noTablets) (Tablet.mk 1 "name" true 0 false false)
    = (Go.Returns (Some (nameTablet 100), None),
       mkWorld cluster [] [tabletProposal (nameTablet 0)]).
Proof.
  split; [by split|].
  destruct (ShouldServe_claims (answeringEnv (Some errTabletAlreadyServed) cluster)
              inOrder (world0 noTablets) (Tablet.mk 1 "name" true 0 false false)
              (Some errTabletAlreadyServed) cluster 1
              (Group.mk (Some {[1 := alpha true]}) (Some {["name" := nameTablet 100]}) 5)
              (nameTablet 100))
    as (tab' & gid' & g' & Heq & _ & _ & _).
  - by split.
  - by intros [=].
  - by intros [=].
  - intros gid g Hg. unfold Go.get in Hg; simpl in Hg.
    by apply lookup_singleton_Some in Hg as [_ <-].
  - reflexivity.
  - by right.
  - reflexivity.
  - reflexivity.
  - rewrite Heq. vm_compute in Heq. injection Heq as <-. by vm_compute.
Defined.

(** Any other failure of the proposal is returned to the caller, with the
    request's tablet. *)
Example ShouldServe_other_failure :
  ShouldServe (answeringEnv (Some (ErrOther 1)) noTablets) inOrder
    (world0 noTablets) (Tablet.mk 1 "name" true 0 false false)
  = (Go.Returns (Some (nameTablet 0), Some (ErrOther 1)),
     mkWorld noTablets [] [tabletProposal (nameTablet 0)]).
Proof. by vm_compute. Qed.

(** Without the commit the assertion fails: the node answers already
    served and leaves a state without the tablet. *)
Example ShouldServe_assertion :
  (ShouldServe (answeringEnv (Some errTabletAlreadyServed) noTablets) inOrder
     (world0 noTablets) (Tablet.mk 1 "name" true 0 false false)).1
  = Go.Panics.
Proof. by vm_compute. Qed.

(** * Further properties of the code *)

(** ** Connect: what createProposal proposes for a new identity *)

(** The scan for a group below the replica count: it stops at a group
    with room, and runs to its end only when every group is full. *)
Lemma capacityScan s (m : Member.t) (proposal : ZeroProposal.t) l :
  match
    Go.forRange
      (λ (_ : unit) '(gid, group),
         if Go.len (Group.Members group) <? NumReplicas s
         then
           let m := Member.withGroupId m gid in
           Go.Return (m, Some (ZeroProposal.withMember proposal m))
         else Go.Continue tt)
      tt l
  with
  | inl (m', p) =>
    ∃ gid g, (gid, g) ∈ l
             ∧ Go.len (Group.Members g) < NumReplicas s
             ∧ m' = Member.withGroupId m gid
             ∧ p = Some (ZeroProposal.withMember proposal m')
  | inr _ => ∀ gid g, (gid, g) ∈ l → NumReplicas s ≤ Go.len (Group.Members g)
  end.
Proof.
  induction l as [|[gid g] l IH]; simpl.
  { by intros gid g ?%elem_of_nil. }
  destruct (Go.len (Group.Members g) <? NumReplicas s) eqn:Hroom.
  - exists gid, g. apply Z.ltb_lt in Hroom.
    split; [apply list_elem_of_here|done].
  - apply Z.ltb_ge in Hroom.
    destruct (Go.forRange _ tt l) as [[m' p]|[]].
    + destruct IH as (gid' & g' & Hin & ?). exists gid', g'.
      split; [by apply list_elem_of_further|done].
    + intros gid' g' [[= -> ->]|Hin]%elem_of_cons; [done|by eapply IH].
Qed.

(** What createProposal returns for an identity that no group holds. *)
Lemma createProposal_unknown σ s m :
  fair σ →
  (∀ gid g, Go.get (MembershipState.Groups (state s)) gid = Some g →
            Go.get (Group.Members g) (Member.Id m) = None) →
  let id := if Member.Id m =? 0
            then Go.uint64 (MembershipState.MaxRaftId (state s) + 1)
            else Member.Id m in
  ∃ gid,
    createProposal σ s m
    = (s, Member.withGroupId (Member.withId m id) gid,
       Some (ZeroProposal.mk None
               (Some (Member.withGroupId (Member.withId m id) gid)) None
               (if Member.Id m =? 0 then id else 0)))
    ∧ placement s (Member.GroupId m) id gid.
Proof.
  intros Hσ Hunknown id. unfold createProposal.
  rewrite forRange_all_continue; last first.
  { intros [gid g] He.
    apply (range_elem_of _ _ _ _ (fairGroups σ Hσ _ _)) in He.
    by rewrite (Hunknown gid g He). }
  set (m1 := Member.withId m id).
  set (proposal := ZeroProposal.mk None None None (if Member.Id m =? 0 then id else 0)).
  cbv zeta.
  match goal with
  | |- context [if Member.Id m =? 0 then ?a else ?b] =>
    replace (if Member.Id m =? 0 then a else b) with (m1, proposal)
  end; last first.
  { subst m1 proposal id. destruct (Member.Id m =? 0) eqn:Hid; [done|].
    by destruct m. }
  assert (Member.GroupId m1 = Member.GroupId m) as Hgid by done.
  assert (Member.Id m1 = id) as Hid1 by done.
  assert (∀ gid, Member.withGroupId m1 gid
                 = Member.withGroupId (Member.withId m id) gid) as Hm1 by done.
  assert (Member.withGroupId m1 (Member.GroupId m) = m1) as Hsame
    by (subst m1; by destruct m).
  pose proof (capacityScan s m1 proposal
                (rangeGroups σ 4%nat (Go.entries (MembershipState.Groups (state s)))))
    as Hscan.
  assert (∃ gid,
            match
              Go.forRange
                (λ (_ : unit) '(gid, group),
                   if Go.len (Group.Members group) <? NumReplicas s
                   then
                     let m := Member.withGroupId m1 gid in
                     Go.Return (m, Some (ZeroProposal.withMember proposal m))
                   else Go.Continue tt)
                tt (rangeGroups σ 4%nat (Go.entries (MembershipState.Groups (state s))))
            with
            | inl (m0, p) => (s, m0, p)
            | inr _ =>
              let m0 := Member.withGroupId m1 (nextGroup s) in
              (s, m0, Some (ZeroProposal.withMember proposal m0))
            end
            = (s, Member.withGroupId (Member.withId m id) gid,
               Some (ZeroProposal.mk None
                       (Some (Member.withGroupId (Member.withId m id) gid)) None
                       (if Member.Id m =? 0 then id else 0)))
            ∧ (declined s (Member.GroupId m) id →
               placement s (Member.GroupId m) id gid)) as Hrest.
  { destruct (Go.forRange _ tt _) as [[m' p]|[]].
    - destruct Hscan as (gid & g & Hin & Hroom & -> & ->).
      apply (range_elem_of _ _ _ _ (fairGroups σ Hσ _ _)) in Hin.
      exists gid. split; [done|]. intros Hdecl. by eapply placeRoom.
    - exists (nextGroup s). split; [done|]. intros Hdecl. apply placeNew; [done..|].
      intros gid g Hg. apply (Hscan gid g).
      by apply (range_elem_of _ _ _ _ (fairGroups σ Hσ _ _)). }
  rewrite Hgid, Hid1.
  destruct (0 <? Member.GroupId m) eqn:Hasked.
  2: { apply Z.ltb_ge in Hasked. destruct Hrest as (gid & Heq & Hpl).
       exists gid. split; [done|]. apply Hpl. by left. }
  apply Z.ltb_lt in Hasked.
  destruct (Go.get (MembershipState.Groups (state s)) (Member.GroupId m))
    as [group|] eqn:Hgroup.
  - destruct (Go.get (Group.Members group) id) as [held|] eqn:Hheld.
    + exists (Member.GroupId m). rewrite Hsame. split; [done|].
      apply placeAsked; [done..|]. right. exists group. split; [done|]. left. by eexists.
    + destruct (Go.len (Group.Members group) <? NumReplicas s) eqn:Hroom.
      2: { apply Z.ltb_ge in Hroom. destruct Hrest as (gid & Heq & Hpl).
           exists gid. split; [done|]. apply Hpl. right. by exists group. }
      apply Z.ltb_lt in Hroom.
      exists (Member.GroupId m). rewrite Hsame. split; [done|].
      apply placeAsked; [done..|]. right. exists group. split; [done|]. by right.
  - exists (Member.GroupId m). rewrite Hsame. split; [done|].
    apply placeAsked; [done..|]. by left.
Qed.

(** X1. For an identity that no group holds, createProposal always makes a
    proposal, and the proposal carries the descriptor that Connect goes on
    with. The descriptor keeps the address and the flags of the request. A
    zero identity is replaced by MaxRaftId + 1 (as a uint64), which the
    proposal also records as its MaxRaftId; a nonzero identity is kept,
    and the proposal records no MaxRaftId. *)
Theorem createProposal_identity σ s m :
  fair σ →
  (∀ gid g, Go.get (MembershipState.Groups (state s)) gid = Some g →
            Go.get (Group.Members g) (Member.Id m) = None) →
  ∃ m' p,
    createProposal σ s m = (s, m', Some p)
    ∧ ZeroProposal.Member p = Some m'
    ∧ ZeroProposal.Tablet p = None
    ∧ ZeroProposal.SnapshotTs p = None
    ∧ Member.Addr m' = Member.Addr m
    ∧ Member.Leader m' = Member.Leader m
    ∧ Member.AmDead m' = Member.AmDead m
    ∧ Member.ClusterInfoOnly m' = Member.ClusterInfoOnly m
    ∧ (Member.Id m = 0 →
       Member.Id m' = Go.uint64 (MembershipState.MaxRaftId (state s) + 1)
       ∧ ZeroProposal.MaxRaftId p = Member.Id m')
    ∧ (Member.Id m ≠ 0 →
       Member.Id m' = Member.Id m ∧ ZeroProposal.MaxRaftId p = 0).
Proof.
  intros Hσ Hunknown.
  destruct (createProposal_unknown σ s m Hσ Hunknown) as (gid & -> & _).
  eexists _, _. split; [reflexivity|]. simpl.
  do 7 (split; [done|]). split.
  - by intros ->.
  - intros Hid. by rewrite (proj2 (Z.eqb_neq _ _) Hid).
Qed.

Lemma cluster_holds_only_1 id :
  id ≠ 1 →
  ∀ gid g, Go.get (MembershipState.Groups (state cluster)) gid = Some g →
           Go.get (Group.Members g) id = None.
Proof.
  intros Hid gid g Hg. unfold Go.get in Hg; simpl in Hg.
  apply lookup_singleton_Some in Hg as [_ <-].
  unfold Go.get; simpl. by apply lookup_singleton_ne.
Qed.

Lemma createProposal_identity_witness :
  fair inOrder
  ∧ ∃ m' p, createProposal inOrder cluster node1 = (cluster, m', Some p)
            ∧ Member.Id m' = 2 ∧ ZeroProposal.MaxRaftId p = 2.
Proof.
  split; [by split|].
  destruct (createProposal_identity inOrder cluster node1)
    as (m' & p & Heq & _ & _ & _ & _ & _ & _ & _ & Hzero & _).
  - by split.
  - by apply cluster_holds_only_1.
  - exists m', p. split; [exact Heq|].
    destruct Hzero as [-> ->]; [reflexivity|]. by split.
Defined.

(** X2. For an identity that no group holds, createProposal places the
    member in the group it asks for when that group does not exist yet,
    already holds the identity, or is below the replica count; otherwise
    in an existing group below the replica count; and only when every
    group is full in the group numbered [nextGroup]. So unless it opens
    group [nextGroup], the group it proposes is missing, holds the
    identity, or has room. *)
Theorem createProposal_placement σ s m :
  fair σ →
  (∀ gid g, Go.get (MembershipState.Groups (state s)) gid = Some g →
            Go.get (Group.Members g) (Member.Id m) = None) →
  ∃ m' p,
    createProposal σ s m = (s, m', Some p)
    ∧ placement s (Member.GroupId m) (Member.Id m') (Member.GroupId m')
    ∧ (Member.GroupId m' = nextGroup s
       ∨ ∀ g, Go.get (MembershipState.Groups (state s)) (Member.GroupId m') = Some g →
              is_Some (Go.get (Group.Members g) (Member.Id m'))
              ∨ Go.len (Group.Members g) < NumReplicas s).
Proof.
  intros Hσ Hunknown.
  destruct (createProposal_unknown σ s m Hσ Hunknown) as (gid & -> & Hplace).
  eexists _, _. split; [reflexivity|]. simpl. split; [done|].
  destruct Hplace as [-> Hasked [Hnone|(g & Hg & Hok)]|g Hdecl Hg Hroom|Hdecl -> Hfull].
  - right. intros g Hg. by rewrite Hnone in Hg.
  - right. intros g' Hg'. rewrite Hg in Hg'. by simplify_eq.
  - right. intros g' Hg'. rewrite Hg in Hg'. simplify_eq. by right.
  - by left.
Qed.

Lemma createProposal_placement_witness :
  fair inOrder
  ∧ ∃ m' p, createProposal inOrder cluster node1 = (cluster, m', Some p)
            ∧ Member.GroupId m' = 2.
Proof.
  split; [by split|].
  destruct (createProposal_placement inOrder cluster node1)
    as (m' & p & Heq & _ & _).
  - by split.
  - by apply cluster_holds_only_1.
  - exists m', p. split; [exact Heq|].
    vm_compute in Heq. by simplify_eq.
Defined.

(** ** Connect as a whole *)

(** X3. Whatever the request, Connect either leaves the world as it is (a
    request turned away before the proposal step, or an info-only
    request), or it registers the address with the connection pool and
    then either proposes nothing and leaves the server as it is, or hands
    exactly one proposal to the consensus node, the one createProposal
    made, and returns the error of that proposal. *)
Theorem Connect_effects E σ w m :
  let '((resp, err), w') := Connect E σ w m in
  w' = w
  ∨ pool w' = pool w ++ [PoolConnect (Member.Addr m)]
    ∧ ((createProposal σ (srv w) m).2 = None
       ∧ srv w' = srv w ∧ proposed w' = proposed w ∧ err = None
       ∨ ∃ p, (createProposal σ (srv w) m).2 = Some p
              ∧ proposed w' = proposed w ++ [p]
              ∧ proposeAndWait E p (srv w) = (err, srv w')).
Proof.
  unfold Connect.
  destruct (ctxErr E); [by left|].
  destruct (Member.ClusterInfoOnly m).
  { destruct (latestMembershipState E (srv w)). by left. }
  destruct (String.length (Member.Addr m) =? 0)%nat; [by left|].
  destruct (Go.forRange _ tt (MembershipState.Removed _)); [by left|].
  destruct (Go.forRange _ tt (rangeGroups σ 2%nat _)); [by left|].
  pose proof (createProposal_server σ (srv w) m) as Hsrv.
  destruct (createProposal σ (srv w) m) as [[s m'] [p|]]; simpl in Hsrv; subst s.
  - destruct (proposeAndWait E p (srv w)) as [[err|] s'] eqn:Hnode;
      right; (split; [done|]); right; by exists p.
  - right. split; [done|]. by left.
Qed.


(** X4. A request (live context, not info-only, with an address) under an
    identity found in the removed history with a nonzero group is refused
    with the reused-identity error, before the groups are looked at and
    whatever they hold; the world stays as it is. *)
Theorem Connect_removed_id E σ w m removed :
  ctxErr E = None →
  Member.ClusterInfoOnly m = false →
  Member.Addr m ≠ EmptyString →
  removed ∈ MembershipState.Removed (state (srv w)) →
  Member.GroupId removed ≠ 0 →
  Member.Id removed = Member.Id m →
  Connect E σ w m = ((emptyConnectionState, Some ErrReuseRemovedId), w).
Proof.
  intros Hctx Hinfo Haddr Hin Hgid Hid. unfold Connect.
  rewrite Hctx, Hinfo, Predicate_nonempty by done.
  rewrite (forRange_returns _ ErrReuseRemovedId); [done| |].
  - intros r _. destruct (negb _ && _); eauto.
  - exists removed. split; [done|].
    by rewrite (proj2 (Z.eqb_neq _ _) Hgid), Hid, Z.eqb_refl.
Qed.

Lemma Connect_removed_id_witness :
  Connect (quietEnv true) inOrder
    (world0 (setState cluster
               (MembershipState.withRemoved (state cluster) [beta])))
    otherBeta
  = ((emptyConnectionState, Some ErrReuseRemovedId),
     world0 (setState cluster (MembershipState.withRemoved (state cluster) [beta]))).
Proof.
  apply (Connect_removed_id (quietEnv true) inOrder _ otherBeta beta);
    try reflexivity; try (by intros [=]).
  apply list_elem_of_here.
Defined.



(** ** createProposals: members, errors, payloads *)

(** X6. For a report of one member that the authoritative state knows,
    createProposals emits the member-update proposal for that member if
    and only if the reported address or the reported leader flag differs
    from the one on record, whether or not the member leads and whatever
    else the report carries. *)
Theorem createProposals_member_update σ s dst mid m group srcMember :
  fair σ →
  Go.len (Group.Members dst) = 1 →
  Go.get (Group.Members dst) mid = Some m →
  Go.get (MembershipState.Groups (state s)) (Member.GroupId m) = Some group →
  Go.get (Group.Members group) mid = Some srcMember →
  memberProposal m ∈ (createProposals σ s dst).1
  ↔ Member.Addr srcMember ≠ Member.Addr m
    ∨ Member.Leader srcMember ≠ Member.Leader m.
Proof.
  intros Hσ Hlen Hm Hgroup Hsrc. unfold createProposals.
  rewrite Hlen. cbn [Z.ltb Z.compare Pos.compare Pos.compare_cont].
  destruct (range_at_most_one _ _
              (fairMembers σ Hσ 1%nat 0 (Go.entries (Group.Members dst))))
    as [[_ Hnone]|(mid' & m' & -> & Hone)].
  { unfold Go.len in Hlen. lia. }
  { unfold Go.get in Hm. by rewrite Hnone, lookup_empty in Hm. }
  apply Hone in Hm as [-> ->]. cbn [Go.forRange].
  rewrite (memberStep_known s dst mid' m' group srcMember Hgroup Hsrc). cbv zeta.
  set (res1 := if negb _ || negb _ then _ else _).
  assert (memberProposal m' ∈ res1
          ↔ Member.Addr srcMember ≠ Member.Addr m'
            ∨ Member.Leader srcMember ≠ Member.Leader m') as Hres1.
  { subst res1.
    destruct (String.eqb_spec (Member.Addr srcMember) (Member.Addr m')) as [Ha|Ha];
      destruct (Member.Leader srcMember), (Member.Leader m'); simpl;
      rewrite ?list_elem_of_singleton, ?elem_of_nil;
      intuition (congruence || discriminate). }
  rewrite <- Hres1.
  destruct (Member.Leader m'); cbn [negb]; [|done].
  rewrite collected_fst. split.
  - intros [Hin|(? & ? & ? & ? & _ & _ & _ & _ & ?)]%tabletLoop_sound; [|done].
    destruct (Group.SnapshotTs group <? Group.SnapshotTs dst); [|done].
    by apply elem_of_app in Hin as [Hin|Hin%list_elem_of_singleton].
  - intros Hin. apply tabletLoop_keeps.
    destruct (Group.SnapshotTs group <? Group.SnapshotTs dst); [|done].
    apply elem_of_app. by left.
Qed.

Lemma createProposals_member_update_witness :
  fair inOrder
  ∧ (memberProposal (alpha false)
     ∈ (createProposals inOrder cluster (report false 100 5)).1
     ↔ Member.Addr (alpha true) ≠ Member.Addr (alpha false)
       ∨ Member.Leader (alpha true) ≠ Member.Leader (alpha false)).
Proof.
  split; [by split|].
  apply (createProposals_member_update inOrder cluster (report false 100 5) 1
           (alpha false)
           (Group.mk (Some {[1 := alpha true]}) (Some {["name" := nameTablet 100]}) 5)
           (alpha true));
    [by split|reflexivity..].
Defined.

(** X7. A report that names more than one member is refused as an invalid
    group, and a report whose member names a group the state does not
    have, or an identity its group does not hold, is refused as an unknown
    member; either way with no proposal at all, whatever tablets and
    snapshot timestamp the report carries. *)
Theorem createProposals_stale σ s dst :
  fair σ →
  (1 < Go.len (Group.Members dst) →
   createProposals σ s dst = ([], Some (Errorf "Create Proposal: Invalid group")))
  ∧ (∀ mid m,
       Go.len (Group.Members dst) ≤ 1 →
       Go.get (Group.Members dst) mid = Some m →
       Go.get (MembershipState.Groups (state s)) (Member.GroupId m) = None
       ∨ (∃ group,
            Go.get (MembershipState.Groups (state s)) (Member.GroupId m) = Some group
            ∧ Go.get (Group.Members group) mid = None) →
       createProposals σ s dst = ([], Some errUnknownMember)).
Proof.
  intros Hσ. unfold createProposals. split.
  - intros Hlen. by rewrite (proj2 (Z.ltb_lt _ _) Hlen).
  - intros mid m Hlen Hm Hstale.
    apply Z.ltb_ge in Hlen. rewrite Hlen.
    destruct (range_at_most_one _ _ (fairMembers σ Hσ 1%nat 0 _) (len_le_1 _ Hlen))
      as [[_ Hnone]|(mid' & m' & -> & Hone)].
    { unfold Go.get in Hm. by rewrite Hnone, lookup_empty in Hm. }
    apply Hone in Hm as [-> ->]. cbn [Go.forRange]. unfold memberStep.
    destruct Hstale as [-> |(group & -> & ->)]; done.
Qed.

Lemma createProposals_stale_witness :
  fair inOrder
  ∧ createProposals inOrder (Init 1) (report true 100 5) = ([], Some errUnknownMember).
Proof.
  split; [by split|].
  apply (proj2 (createProposals_stale inOrder (Init 1) (report true 100 5)
                  ltac:(by split)) 1 (alpha true)).
  - by vm_compute.
  - reflexivity.
  - by left.
Defined.

Lemma tabletLoop_runs s l res :
  (∀ k t, (k, t) ∈ l →
          is_Some (Go.get (MembershipState.Groups (state s)) (Tablet.GroupId t)))
  ↔ ∃ r, Go.forRange (tabletStep s) res l = inr r.
Proof.
  revert res. induction l as [|[k d] l IH]; intros res; simpl.
  { split; [by eexists|]. by intros _ k t ?%elem_of_nil. }
  destruct (Go.get _ (Tablet.GroupId d)) as [g|] eqn:Hg; simpl.
  - transitivity (∀ k t, (k, t) ∈ l →
                    is_Some (Go.get (MembershipState.Groups (state s))
                               (Tablet.GroupId t))).
    { split.
      - intros Hall k' t' Hin. apply (Hall k' t'). by apply list_elem_of_further.
      - intros Hall k' t' [[= -> ->]|Hin]%elem_of_cons; [by rewrite Hg|by eapply Hall]. }
    destruct (Go.get (Group.Tablets g) k) as [t|]; [|by apply IH].
    destruct (tabletChanged t d); by apply IH.
  - split.
    + intros Hall. destruct (Hall k d) as [? Hsome]; [apply list_elem_of_here|].
      by rewrite Hg in Hsome.
    + by intros [r [=]].
Qed.

(** X8. For a report that reaches the tablets (at most one member, known
    to the state and flagged as leader), createProposals succeeds if and
    only if every reported tablet names a group the state has; otherwise
    it fails with the unknown-member error. The outcome does not depend
    on the order in which the tablets are visited. *)
Theorem createProposals_tablet_groups σ s dst :
  fair σ →
  Go.len (Group.Members dst) ≤ 1 →
  (∀ mid m, Go.get (Group.Members dst) mid = Some m →
     Member.Leader m = true
     ∧ ∃ group,
         Go.get (MembershipState.Groups (state s)) (Member.GroupId m) = Some group
         ∧ is_Some (Go.get (Group.Members group) mid)) →
  ((createProposals σ s dst).2 = None
   ↔ ∀ key t, Go.get (Group.Tablets dst) key = Some t →
              is_Some (Go.get (MembershipState.Groups (state s)) (Tablet.GroupId t)))
  ∧ ((createProposals σ s dst).2 = None
     ∨ (createProposals σ s dst).2 = Some errUnknownMember).
Proof.
  intros Hσ Hlen Hknown. unfold createProposals.
  apply Z.ltb_ge in Hlen. rewrite Hlen.
  assert (∀ res,
            ((match Go.forRange (tabletStep s) res
                      (rangeTablets σ 1%nat 0 (Go.entries (Group.Tablets dst)))
              with inl r => r | inr res0 => (res0, None) end).2 = None
             ↔ ∀ key t, Go.get (Group.Tablets dst) key = Some t →
                        is_Some (Go.get (MembershipState.Groups (state s))
                                   (Tablet.GroupId t)))
            ∧ ((match Go.forRange (tabletStep s) res
                        (rangeTablets σ 1%nat 0 (Go.entries (Group.Tablets dst)))
                with inl r => r | inr res0 => (res0, None) end).2 = None
               ∨ (match Go.forRange (tabletStep s) res
                          (rangeTablets σ 1%nat 0 (Go.entries (Group.Tablets dst)))
                  with inl r => r | inr res0 => (res0, None) end).2
                 = Some errUnknownMember)) as Htab.
  { intros res.
    pose proof (tabletLoop_runs s
                  (rangeTablets σ 1%nat 0 (Go.entries (Group.Tablets dst))) res)
      as Hruns.
    assert ((∀ k t, (k, t) ∈ rangeTablets σ 1%nat 0 (Go.entries (Group.Tablets dst)) →
               is_Some (Go.get (MembershipState.Groups (state s)) (Tablet.GroupId t)))
            ↔ ∀ key t, Go.get (Group.Tablets dst) key = Some t →
                       is_Some (Go.get (MembershipState.Groups (state s))
                                  (Tablet.GroupId t))) as Hiff.
    { split; intros Hall k t Hk; apply (Hall k t);
        by apply (range_elem_of _ _ k t
                    (fairTablets σ Hσ 1%nat 0 (Go.entries (Group.Tablets dst)))). }
    rewrite <- Hiff, Hruns.
    destruct (Go.forRange (tabletStep s) res _) as [[r err]|r] eqn:Hloop.
    - apply tabletLoop_error in Hloop as ->. simpl.
      split; [|by right]. split; [done|]. by intros [? [=]].
    - simpl. split; [|by left]. split; [by eexists|done]. }
  destruct (range_at_most_one _ _ (fairMembers σ Hσ 1%nat 0 _) (len_le_1 _ Hlen))
    as [[-> _]|(mid & m & -> & Hone)]; cbn [Go.forRange]; [apply Htab|].
  destruct (Hknown mid m) as (Hleader & group & Hgroup & [src Hsrc]);
    [by apply Hone|].
  rewrite (memberStep_known s dst mid m group src Hgroup Hsrc). cbv zeta.
  rewrite Hleader. cbn [negb]. apply Htab.
Qed.

Lemma createProposals_tablet_groups_witness :
  fair inOrder
  ∧ (createProposals inOrder cluster
       (Group.mk (Some {[1 := alpha true]})
                 (Some {["name" := Tablet.mk 4 "name" false 100 false false]}) 5)).2
    = Some errUnknownMember.
Proof.
  split; [by split|].
  destruct (createProposals_tablet_groups inOrder cluster
              (Group.mk (Some {[1 := alpha true]})
                        (Some {["name" := Tablet.mk 4 "name" false 100 false false]}) 5))
    as [Hiff [Hnone|Herr]].
  - by split.
  - by vm_compute.
  - intros mid m Hm. unfold Go.get in Hm; simpl in Hm.
    apply lookup_singleton_Some in Hm as [<- <-].
    split; [reflexivity|]. eexists. split; [reflexivity|]. by eexists.
  - destruct (proj1 Hiff Hnone "name" (Tablet.mk 4 "name" false 100 false false))
      as [g Hg]; [reflexivity|]. vm_compute in Hg. discriminate Hg.
  - exact Herr.
Defined.

(** X9. Every proposal of createProposals carries exactly one payload, a
    member, a tablet or a snapshot timestamp for one group, and never a
    MaxRaftId; a tablet it carries has its Force flag cleared. *)
Theorem createProposals_payload σ s dst p :
  fair σ →
  p ∈ (createProposals σ s dst).1 →
  ZeroProposal.MaxRaftId p = 0
  ∧ ((∃ m, p = memberProposal m)
     ∨ (∃ gid, p = snapshotProposal gid (Group.SnapshotTs dst))
     ∨ (∃ t, p = tabletProposal t ∧ Tablet.Force t = false)).
Proof.
  intros Hσ Hp.
  apply (createProposals_sound σ s dst p Hσ) in Hp
    as [(? & m & _ & ->)|[(? & m & ? & _ & _ & _ & _ & ->)
                         |(_ & ? & t & ? & ? & _ & _ & _ & _ & ->)]].
  - split; [done|]. left. by exists m.
  - split; [done|]. right; left. by eexists.
  - split; [done|]. right; right. by eexists.
Qed.

Lemma createProposals_payload_witness :
  fair inOrder
  ∧ tabletProposal (nameTablet 80)
    ∈ (createProposals inOrder cluster (report true 80 5)).1
  ∧ ZeroProposal.MaxRaftId (tabletProposal (nameTablet 80)) = 0.
Proof.
  assert (tabletProposal (nameTablet 80)
          ∈ (createProposals inOrder cluster (report true 80 5)).1) as Hin
    by (vm_compute; apply list_elem_of_here).
  split; [by split|]. split; [exact Hin|].
  apply (createProposals_payload inOrder cluster (report true 80 5)
           (tabletProposal (nameTablet 80))); [by split|exact Hin].
Defined.

(** ** ServingTablet and ShouldServe: further properties *)

Lemma ServingTablet_unowned σ site s tablet :
  fair σ →
  (∀ gid g, Go.get (MembershipState.Groups (state s)) gid = Some g →
            Go.get (Group.Tablets g) tablet = None) →
  ServingTablet σ site s tablet = None.
Proof.
  intros Hσ Hnone.
  pose proof (ServingTablet_spec σ site s tablet Hσ) as Hspec.
  destruct (ServingTablet σ site s tablet) as [tab'|]; [|done].
  destruct Hspec as (gid' & g' & Hg' & Htab'). by rewrite (Hnone gid' g' Hg') in Htab'.
Qed.

(** X10. ServingTablet returns nil exactly when no group holds a tablet
    under the key; and when one group only holds one, it returns that
    tablet, in whatever order the groups and their tablets are visited. *)
Theorem ServingTablet_owner σ site s tablet :
  fair σ →
  (ServingTablet σ site s tablet = None
   ↔ ∀ gid g, Go.get (MembershipState.Groups (state s)) gid = Some g →
              Go.get (Group.Tablets g) tablet = None)
  ∧ (∀ gid g tab,
       Go.get (MembershipState.Groups (state s)) gid = Some g →
       Go.get (Group.Tablets g) tablet = Some tab →
       (∀ gid' g', Go.get (MembershipState.Groups (state s)) gid' = Some g' →
                   is_Some (Go.get (Group.Tablets g') tablet) → gid' = gid) →
       ServingTablet σ site s tablet = Some tab).
Proof.
  intros Hσ.
  pose proof (ServingTablet_spec σ site s tablet Hσ) as Hspec.
  destruct (ServingTablet σ site s tablet) as [tab'|].
  - destruct Hspec as (gid' & g' & Hg' & Htab'). split.
    + split; [done|]. intros Hnone. by rewrite (Hnone gid' g' Hg') in Htab'.
    + intros gid g tab Hg Htab Honly.
      rewrite (Honly gid' g' Hg') in Hg' by by eexists.
      by simplify_eq.
  - split; [done|].
    intros gid g tab Hg Htab _. by rewrite (Hspec gid g Hg) in Htab.
Qed.

Lemma ServingTablet_owner_witness :
  fair backwards
  ∧ ServingTablet backwards 0%nat cluster "name" = Some (nameTablet 100).
Proof.
  split; [exact fair_backwards|].
  apply (proj2 (ServingTablet_owner backwards 0%nat cluster "name" fair_backwards) 1
           (Group.mk (Some {[1 := alpha true]}) (Some {["name" := nameTablet 100]}) 5)
           (nameTablet 100)); [reflexivity..|].
  intros gid' g' Hg' _. unfold Go.get in Hg'; simpl in Hg'.
  by apply lookup_singleton_Some in Hg' as [<- _].
Defined.

(** X11. Whatever the request, ShouldServe either leaves the world as it
    is, or it has handed exactly one proposal to the consensus node: the
    request's tablet with Force cleared, for a request with a predicate
    and a nonzero group whose key no lookup found. The server changes
    only as that proposal changes it, and the connection pool is never
    touched. *)
Theorem ShouldServe_effects E σ w tablet :
  let '(res, w') := ShouldServe E σ w tablet in
  w' = w
  ∨ (proposed w' = proposed w ++ [tabletProposal (Tablet.withForce tablet false)]
     ∧ pool w' = pool w
     ∧ Tablet.Predicate tablet ≠ EmptyString
     ∧ Tablet.GroupId tablet ≠ 0
     ∧ ServingTablet σ 5%nat (srv w) (Tablet.Predicate tablet) = None
     ∧ ∃ err, proposeAndWait E (tabletProposal (Tablet.withForce tablet false)) (srv w)
              = (err, srv w')).
Proof.
  unfold ShouldServe.
  destruct (Tablet.Predicate tablet) as [|c p] eqn:Hpred; [by left|]. simpl.
  destruct (Tablet.GroupId tablet =? 0) eqn:Hgid; [by left|].
  apply Z.eqb_neq in Hgid.
  destruct (ServingTablet σ 5%nat (srv w) (String c p)) as [tab|] eqn:Hserving;
    [by left|].
  destruct (proposeAndWait E _ (srv w)) as [err s'] eqn:Hnode.
  destruct err as [err|]; [destruct (decide (err = errTabletAlreadyServed))|];
    try destruct (ServingTablet σ 6%nat s' _);
    right; (do 5 (split; [done|])); by eexists.
Qed.

(** X12. When no group holds the key and the proposal fails with an error
    other than the already-served one, ShouldServe returns that error
    together with the request's tablet, Force cleared, and does not look
    the key up again. *)
Theorem ShouldServe_failure E σ w tablet err s' :
  fair σ →
  Tablet.Predicate tablet ≠ EmptyString →
  Tablet.GroupId tablet ≠ 0 →
  (∀ gid g, Go.get (MembershipState.Groups (state (srv w))) gid = Some g →
            Go.get (Group.Tablets g) (Tablet.Predicate tablet) = None) →
  proposeAndWait E (tabletProposal (Tablet.withForce tablet false)) (srv w)
  = (Some err, s') →
  err ≠ errTabletAlreadyServed →
  ShouldServe E σ w tablet
  = (Go.Returns (Some (Tablet.withForce tablet false), Some err),
     mkWorld s' (pool w)
       (proposed w ++ [tabletProposal (Tablet.withForce tablet false)])).
Proof.
  intros Hσ Hpred Hgid Hfree Hnode Herr. unfold ShouldServe.
  rewrite Predicate_nonempty by done.
  rewrite (proj2 (Z.eqb_neq _ _) Hgid).
  rewrite (ServingTablet_unowned σ 5%nat (srv w) _ Hσ Hfree).
  rewrite Hnode. by rewrite decide_False by done.
Qed.

Lemma ShouldServe_failure_witness :
  fair inOrder
  ∧ ShouldServe (answeringEnv (Some (ErrOther 1)) noTablets) inOrder
      (world0 noTablets) (Tablet.mk 1 "name" true 0 false false)
    = (Go.Returns (Some (nameTablet 0), Some (ErrOther 1)),
       mkWorld noTablets [] [tabletProposal (nameTablet 0)]).
Proof.
  split; [by split|].
  apply (ShouldServe_failure (answeringEnv (Some (ErrOther 1)) noTablets) inOrder
           (world0 noTablets) (Tablet.mk 1 "name" true 0 false false)
           (ErrOther 1) noTablets).
  - by split.
  - by intros [=].
  - by intros [=].
  - intros gid g Hg. unfold Go.get in Hg; simpl in Hg.
    by apply lookup_singleton_Some in Hg as [_ <-].
  - reflexivity.
  - by intros [=].
Defined.

(** X13. The assertion of ShouldServe fails in one situation only: the
    request has a predicate and a nonzero group, no group holds the key,
    the proposal returns no error or the already-served error, and in the
    state it leaves still no group holds the key. *)
Theorem ShouldServe_panics E σ w tablet :
  fair σ →
  (ShouldServe E σ w tablet).1 = Go.Panics
  ↔ Tablet.Predicate tablet ≠ EmptyString
    ∧ Tablet.GroupId tablet ≠ 0
    ∧ (∀ gid g, Go.get (MembershipState.Groups (state (srv w))) gid = Some g →
                Go.get (Group.Tablets g) (Tablet.Predicate tablet) = None)
    ∧ ∃ err s',
        proposeAndWait E (tabletProposal (Tablet.withForce tablet false)) (srv w)
        = (err, s')
        ∧ (err = None ∨ err = Some errTabletAlreadyServed)
        ∧ ∀ gid g, Go.get (MembershipState.Groups (state s')) gid = Some g →
                   Go.get (Group.Tablets g) (Tablet.Predicate tablet) = None.
Proof.
  intros Hσ. unfold ShouldServe.
  destruct (String.length (Tablet.Predicate tablet) =? 0)%nat eqn:Hlen.
  { split; [done|]. intros (Hpred & _). by rewrite Predicate_nonempty in Hlen. }
  assert (Tablet.Predicate tablet ≠ EmptyString) as Hpred
    by (intros Heq; by rewrite Heq in Hlen).
  destruct (Tablet.GroupId tablet =? 0) eqn:Hgid.
  { split; [done|]. intros (_ & Hne & _). by apply Z.eqb_eq in Hgid. }
  apply Z.eqb_neq in Hgid.
  pose proof (ServingTablet_spec σ 5%nat (srv w) (Tablet.Predicate tablet) Hσ)
    as Hbefore.
  destruct (ServingTablet σ 5%nat (srv w) (Tablet.Predicate tablet)) as [tab|].
  { split; [done|]. intros (_ & _ & Hfree & _).
    destruct Hbefore as (gid & g & Hg & Htab). by rewrite (Hfree gid g Hg) in Htab. }
  destruct (proposeAndWait E _ (srv w)) as [err s'] eqn:Hnode.
  pose proof (ServingTablet_spec σ 6%nat s' (Tablet.Predicate tablet) Hσ) as Hafter.
  cbn [Tablet.Predicate Tablet.withForce].
  destruct err as [err|]; [destruct (decide (err = errTabletAlreadyServed)) as [->|Hne]|].
  - destruct (ServingTablet σ 6%nat s' (Tablet.Predicate tablet)) as [tab|]; simpl.
    + split; [done|]. intros (_ & _ & _ & err' & s'' & [= <- <-] & _ & Hfree).
      destruct Hafter as (gid & g & Hg & Htab). by rewrite (Hfree gid g Hg) in Htab.
    + split; [|done]. intros _. do 3 (split; [done|]).
      exists (Some errTabletAlreadyServed), s'. split; [done|]. split; [by right|done].
  - simpl. split; [done|].
    intros (_ & _ & _ & err' & s'' & [= <- <-] & [?|?] & _); congruence.
  - destruct (ServingTablet σ 6%nat s' (Tablet.Predicate tablet)) as [tab|]; simpl.
    + split; [done|]. intros (_ & _ & _ & err' & s'' & [= <- <-] & _ & Hfree).
      destruct Hafter as (gid & g & Hg & Htab). by rewrite (Hfree gid g Hg) in Htab.
    + split; [|done]. intros _. do 3 (split; [done|]).
      exists None, s'. split; [done|]. split; [by left|done].
Qed.

Lemma ShouldServe_panics_witness :
  fair inOrder
  ∧ (ShouldServe (answeringEnv (Some errTabletAlreadyServed) noTablets) inOrder
       (world0 noTablets) (Tablet.mk 1 "name" true 0 false false)).1
    = Go.Panics.
Proof.
  split; [by split|].
  apply (ShouldServe_panics (answeringEnv (Some errTabletAlreadyServed) noTablets)
           inOrder (world0 noTablets) (Tablet.mk 1 "name" true 0 false false));
    [by split|].
  assert (∀ gid g,
            Go.get (MembershipState.Groups (state noTablets)) gid = Some g →
            Go.get (Group.Tablets g) "name" = None) as Hfree.
  { intros gid g Hg. unfold Go.get in Hg; simpl in Hg.
    by apply lookup_singleton_Some in Hg as [_ <-]. }
  split; [by intros [=]|]. split; [by intros [=]|]. split; [exact Hfree|].
  exists (Some errTabletAlreadyServed), noTablets.
  split; [reflexivity|]. split; [by right|exact Hfree].
Defined.

(** ** Zeros: storeZero, removeZero, updateZeroLeader *)

(** X14. Removing the same Zero a second time changes nothing and calls
    nothing: the member is appended to the removed history once. *)
Theorem removeZero_twice s nodeId :
  removeZero (removeZero s nodeId).1 nodeId = ((removeZero s nodeId).1, []).
Proof.
  unfold removeZero at 2 3.
  destruct (Go.get (MembershipState.Zeros (state s)) nodeId) as [m|] eqn:Hm; simpl.
  - unfold removeZero, Go.get, Go.del in *; simpl.
    destruct (MembershipState.Zeros (state s)) as [zeros|]; simpl in *.
    + by rewrite lookup_delete_eq.
    + by rewrite lookup_empty in Hm.
  - unfold removeZero. by rewrite Hm.
Qed.

(** X15. Storing a Zero under an identity that Zeros does not hold and
    then removing that identity gives back the Zeros map and every other
    field as they were, except that the member is now the last entry of
    the removed history; in between, the identity looks up to the stored
    member. *)
Theorem storeZero_removeZero s m zeros :
  MembershipState.Zeros (state s) = Some zeros →
  zeros !! Member.Id m = None →
  ∃ s1,
    storeZero s m = Go.Returns s1
    ∧ Go.get (MembershipState.Zeros (state s1)) (Member.Id m) = Some m
    ∧ removeZero s1 (Member.Id m)
      = (setState s
           (MembershipState.withRemoved (state s)
              (MembershipState.Removed (state s) ++ [m])),
         [PoolRemove (Member.Addr m)]).
Proof.
  intros Hzeros Hfree. unfold storeZero. rewrite Hzeros.
  eexists. split; [reflexivity|].
  unfold removeZero, Go.get, Go.del; simpl.
  rewrite lookup_insert_eq. split; [done|]. simpl.
  rewrite delete_insert_id by done.
  destruct s as [nr [c gs zs ml mt mr rm] nl nt ro ng]; simpl in *. by subst zs.
Qed.

Lemma storeZero_removeZero_witness :
  removeZero
    (setState (Init 3)
       (MembershipState.withZeros (state (Init 3)) (Some {[7 := beta]}))) 7
  = (setState (Init 3) (MembershipState.withRemoved (state (Init 3)) [beta]),
     [PoolRemove "b7:7080"]).
Proof.
  destruct (storeZero_removeZero (Init 3) beta ∅) as (s1 & Hstore & _ & Hremove);
    [reflexivity|reflexivity|].
  injection Hstore as <-. exact Hremove.
Defined.

(** X16. On the server that Init creates and on every server that
    SetMembershipState has set up, storeZero does not panic: the Zeros
    map is allocated, also when the installed state came without one. On
    a server whose Zeros map is nil it panics. *)
Theorem storeZero_after_install σ s st m numReplicas :
  (∃ s1, storeZero (SetMembershipState σ s st).1 m = Go.Returns s1
         ∧ Go.get (MembershipState.Zeros (state s1)) (Member.Id m) = Some m)
  ∧ (∃ s1, storeZero (Init numReplicas) m = Go.Returns s1
           ∧ Go.get (MembershipState.Zeros (state s1)) (Member.Id m) = Some m)
  ∧ storeZero (setState s (MembershipState.withZeros st None)) m = Go.Panics.
Proof.
  split; [|split; [|done]].
  - unfold SetMembershipState.
    destruct st as [c [gs|] [zs|] ml mt mr rm]; simpl;
      destruct (foldl _ _ _) as [groups' conns]; unfold storeZero; simpl;
      eexists; (split; [reflexivity|]);
      unfold Go.get; simpl; apply lookup_insert_eq.
  - eexists. split; [reflexivity|]. unfold Go.get; simpl. apply lookup_insert_eq.
Qed.

(** X17. After updateZeroLeader every Zero is the Zero it was, under the
    same key, with its leader flag set exactly when its identity is the
    leader reported by the consensus node; the rest of the server is
    unchanged, and running it again changes nothing. When Zeros are keyed
    by their identity, at most one Zero is flagged. *)
Theorem updateZeroLeader_flags σ leader s :
  fair σ →
  let s' := updateZeroLeader σ leader s in
  (∀ k, Go.get (MembershipState.Zeros (state s')) k
        = (λ z, setLeader z (Member.Id z =? leader))
            <$> Go.get (MembershipState.Zeros (state s)) k)
  ∧ (∀ k z, Go.get (MembershipState.Zeros (state s')) k = Some z →
            Member.Leader z = true ↔ Member.Id z = leader)
  ∧ setState s' (MembershipState.withZeros (state s')
                   (MembershipState.Zeros (state s))) = s
  ∧ (∀ σ', fair σ' → updateZeroLeader σ' leader s' = s')
  ∧ ((∀ k z, Go.get (MembershipState.Zeros (state s)) k = Some z → Member.Id z = k) →
     ∀ k1 z1 k2 z2,
       Go.get (MembershipState.Zeros (state s')) k1 = Some z1 →
       Go.get (MembershipState.Zeros (state s')) k2 = Some z2 →
       Member.Leader z1 = true → Member.Leader z2 = true → k1 = k2).
Proof.
  intros Hσ s'.
  assert (∀ τ s0, fair τ →
            state (updateZeroLeader τ leader s0)
            = MembershipState.withZeros (state s0)
                (fmap (M := gmap Z) (λ z, setLeader z (Member.Id z =? leader))
                   <$> MembershipState.Zeros (state s0))) as Hstate.
  { intros τ s0 Hτ. unfold updateZeroLeader.
    destruct s0 as [nr [c gs [zs|] ml mt mr rm] nl nt ro ng]; simpl; [|done].
    by rewrite (foldl_insert_fmap (λ z, setLeader z (Member.Id z =? leader)) _ zs
                  (fairMembers τ Hτ 12%nat 0 zs)). }
  assert (∀ k, Go.get (MembershipState.Zeros (state s')) k
               = (λ z, setLeader z (Member.Id z =? leader))
                   <$> Go.get (MembershipState.Zeros (state s)) k) as Hget.
  { intros k. subst s'. rewrite Hstate by done. unfold Go.get; simpl.
    destruct (MembershipState.Zeros (state s)) as [zs|]; simpl.
    - by rewrite lookup_fmap.
    - by rewrite lookup_empty. }
  assert (∀ k z, Go.get (MembershipState.Zeros (state s')) k = Some z →
                 Member.Leader z = true ↔ Member.Id z = leader) as Hflag.
  { intros k z Hz. rewrite Hget in Hz.
    destruct (Go.get (MembershipState.Zeros (state s)) k) as [z0|]; simplify_eq/=.
    apply Z.eqb_eq. }
  split; [done|]. split; [done|]. split; [|split].
  - subst s'. unfold updateZeroLeader.
    by destruct s as [nr [c gs [zs|] ml mt mr rm] nl nt ro ng].
  - intros σ' Hσ'.
    assert (state (updateZeroLeader σ' leader s') = state s') as Hsame.
    { rewrite Hstate by done. subst s'. rewrite Hstate by done.
      destruct (state s) as [c gs [zs|] ml mt mr rm]; simpl; [|done].
      unfold MembershipState.withZeros; simpl. f_equal. f_equal.
      rewrite <- map_fmap_compose. apply map_fmap_ext. intros k z _. simpl.
      unfold setLeader; simpl. by destruct (Member.Id z =? leader). }
    unfold updateZeroLeader in Hsame |- *.
    destruct (MembershipState.Zeros (state s')); [|done].
    destruct s'; simpl in *. by rewrite Hsame.
  - intros Hkeyed k1 z1 k2 z2 Hz1 Hz2 Hl1 Hl2.
    apply (Hflag k1 z1 Hz1) in Hl1. apply (Hflag k2 z2 Hz2) in Hl2.
    rewrite Hget in Hz1, Hz2.
    destruct (Go.get (MembershipState.Zeros (state s)) k1) as [y1|] eqn:Hy1;
      destruct (Go.get (MembershipState.Zeros (state s)) k2) as [y2|] eqn:Hy2;
      simpl in Hz1, Hz2; try done.
    injection Hz1 as <-. injection Hz2 as <-. simpl in Hl1, Hl2.
    rewrite <- (Hkeyed k1 y1 Hy1), <- (Hkeyed k2 y2 Hy2). congruence.
Qed.

Lemma updateZeroLeader_flags_witness :
  fair inOrder
  ∧ Go.get
      (MembershipState.Zeros
         (state (updateZeroLeader inOrder 7
                   (setState (Init 3)
                      (MembershipState.withZeros (state (Init 3))
                         (Some {[1 := alpha true; 7 := otherBeta]})))))) 1
    = Some (alpha false).
Proof.
  split; [by split|].
  destruct (updateZeroLeader_flags inOrder 7
              (setState (Init 3)
                 (MembershipState.withZeros (state (Init 3))
                    (Some {[1 := alpha true; 7 := otherBeta]}))))
    as [Hget _]; [by split|].
  rewrite Hget. reflexivity.
Defined.

(** ** KnownGroups, hasLeader, member, Leader *)

Lemma foldl_append_keys {V : Type} (l : list (Z * V)) (acc : list Z) :
  foldl (λ groups (e : Z * V), groups ++ [e.1]) acc l = acc ++ l.*1.
Proof.
  revert acc. induction l as [|e l IH]; intros acc; simpl.
  - by rewrite app_nil_r.
  - rewrite IH. by rewrite <- app_assoc.
Qed.

(** X18. KnownGroups lists every group identity of the state exactly once
    (in the order of the visit) and nothing else: its length is the
    number of groups, and for a state without a Groups map it is empty. *)
Theorem KnownGroups_keys σ s :
  fair σ →
  NoDup (KnownGroups σ s)
  ∧ (∀ gid, gid ∈ KnownGroups σ s
            ↔ is_Some (Go.get (MembershipState.Groups (state s)) gid))
  ∧ Z.of_nat (length (KnownGroups σ s)) = Go.len (MembershipState.Groups (state s)).
Proof.
  intros Hσ. unfold KnownGroups. rewrite foldl_append_keys. simpl.
  pose proof (fairGroups σ Hσ 10%nat
                (Go.entries (MembershipState.Groups (state s)))) as Hperm.
  split; [by eapply range_NoDup|]. split.
  - intros gid. rewrite list_elem_of_fmap. split.
    + intros ([gid' g] & -> & Hin). exists g.
      by apply (range_elem_of _ _ _ _ Hperm) in Hin.
    + intros [g Hg]. exists (gid, g). split; [done|].
      by apply (range_elem_of _ _ _ _ Hperm).
  - rewrite length_fmap, Hperm, length_map_to_list. done.
Qed.

Lemma KnownGroups_keys_witness :
  fair inOrder
  ∧ NoDup (KnownGroups inOrder twoGroups)
  ∧ Z.of_nat (length (KnownGroups inOrder twoGroups)) = 2.
Proof.
  split; [by split|].
  destruct (KnownGroups_keys inOrder twoGroups) as (Hnd & _ & Hlen); [by split|].
  split; [exact Hnd|]. rewrite Hlen. reflexivity.
Defined.

Lemma leaderScan (l : list (Z * Member.t)) :
  match
    Go.forRange
      (λ (_ : unit) '(_, m),
         if Member.Leader m then Go.Return true else Go.Continue tt)
      tt l
  with
  | inl b => b = true ∧ ∃ k m, (k, m) ∈ l ∧ Member.Leader m = true
  | inr _ => ∀ k m, (k, m) ∈ l → Member.Leader m = false
  end.
Proof.
  induction l as [|[k m] l IH]; simpl.
  { by intros k m ?%elem_of_nil. }
  destruct (Member.Leader m) eqn:Hm.
  - split; [done|]. exists k, m. split; [apply list_elem_of_here|done].
  - destruct (Go.forRange _ tt l) as [b|[]].
    + destruct IH as (-> & k' & m' & Hin & Hl). split; [done|].
      exists k', m'. split; [by apply list_elem_of_further|done].
    + intros k' m' [[= -> ->]|Hin]%elem_of_cons; [done|by eapply IH].
Qed.

(** X19. hasLeader answers true exactly when the state has the group and
    some member of that group carries the leader flag; for a group the
    state does not have it answers false. *)
Theorem hasLeader_iff σ s gid :
  fair σ →
  hasLeader σ s gid = true
  ↔ ∃ group mid m,
      Go.get (MembershipState.Groups (state s)) gid = Some group
      ∧ Go.get (Group.Members group) mid = Some m
      ∧ Member.Leader m = true.
Proof.
  intros Hσ. unfold hasLeader.
  destruct (Go.get (MembershipState.Groups (state s)) gid) as [group|];
    [|split; [done|by intros (? & ? & ? & [=] & _)]].
  pose proof (fairMembers σ Hσ 9%nat gid (Go.entries (Group.Members group))) as Hperm.
  pose proof (leaderScan (rangeMembers σ 9%nat gid (Go.entries (Group.Members group))))
    as Hscan.
  destruct (Go.forRange _ tt _) as [b|[]].
  - destruct Hscan as (-> & mid & m & Hin & Hm). split; [|done]. intros _.
    exists group, mid, m. split; [done|]. split; [|done].
    by apply (range_elem_of _ _ _ _ Hperm) in Hin.
  - split; [done|]. intros (g & mid & m & [= <-] & Hm & Hl).
    rewrite (Hscan mid m) in Hl; [done|].
    by apply (range_elem_of _ _ _ _ Hperm).
Qed.

Lemma hasLeader_iff_witness :
  fair inOrder ∧ hasLeader inOrder cluster 1 = true.
Proof.
  split; [by split|].
  apply (hasLeader_iff inOrder cluster 1); [by split|].
  exists (Group.mk (Some {[1 := alpha true]}) (Some {["name" := nameTablet 100]}) 5),
         1, (alpha true).
  by repeat split.
Defined.

Lemma memberScan addr (l : list (Z * Member.t)) :
  match Go.forRange (memberAt addr) tt l with
  | inl m => Member.Addr m = addr ∧ ∃ k, (k, m) ∈ l
  | inr _ => ∀ k m, (k, m) ∈ l → Member.Addr m ≠ addr
  end.
Proof.
  induction l as [|[k m] l IH]; simpl.
  { by intros k m ?%elem_of_nil. }
  destruct (String.eqb_spec (Member.Addr m) addr) as [Heq|Hne].
  - split; [done|]. exists k. apply list_elem_of_here.
  - destruct (Go.forRange (memberAt addr) tt l) as [m'|[]].
    + destruct IH as (Ha & k' & Hin). split; [done|].
      exists k'. by apply list_elem_of_further.
    + intros k' m' [[= -> ->]|Hin]%elem_of_cons; [done|by eapply IH].
Qed.

(** X20. [member] returns a member recorded at the address, among the
    Zeros or in some group, and nil only when nobody is recorded at the
    address. The Zeros come first: when a Zero is recorded at the
    address, the member returned is a Zero. *)
Theorem member_at_address σ s addr :
  fair σ →
  match member σ s addr with
  | Some m =>
    Member.Addr m = addr
    ∧ ((∃ id, Go.get (MembershipState.Zeros (state s)) id = Some m)
       ∨ (∀ id z, Go.get (MembershipState.Zeros (state s)) id = Some z →
                  Member.Addr z ≠ addr)
         ∧ ∃ gid g id, Go.get (MembershipState.Groups (state s)) gid = Some g
                       ∧ Go.get (Group.Members g) id = Some m)
  | None =>
    (∀ id z, Go.get (MembershipState.Zeros (state s)) id = Some z →
             Member.Addr z ≠ addr)
    ∧ ∀ gid g id m, Go.get (MembershipState.Groups (state s)) gid = Some g →
                    Go.get (Group.Members g) id = Some m →
                    Member.Addr m ≠ addr
  end.
Proof.
  intros Hσ. unfold member.
  pose proof (memberScan addr
                (rangeMembers σ 7%nat 0 (Go.entries (MembershipState.Zeros (state s)))))
    as Hzeros.
  pose proof (fairMembers σ Hσ 7%nat 0 (Go.entries (MembershipState.Zeros (state s))))
    as Hpz.
  destruct (Go.forRange (memberAt addr) tt _) as [z|[]].
  { destruct Hzeros as (Ha & id & Hin). split; [done|]. left. exists id.
    by apply (range_elem_of _ _ _ _ Hpz) in Hin. }
  assert (∀ id z, Go.get (MembershipState.Zeros (state s)) id = Some z →
                  Member.Addr z ≠ addr) as Hnoz.
  { intros id z Hz. apply (Hzeros id z). by apply (range_elem_of _ _ _ _ Hpz). }
  pose proof (fairGroups σ Hσ 8%nat (Go.entries (MembershipState.Groups (state s))))
    as Hpg.
  assert (∀ l,
            match
              Go.forRange
                (λ (_ : unit) '(gid, g),
                   match
                     Go.forRange (memberAt addr) tt
                       (rangeMembers σ 8%nat gid (Go.entries (Group.Members g)))
                   with
                   | inl m => Go.Return m
                   | inr _ => Go.Continue tt
                   end)
                tt l
            with
            | inl m => Member.Addr m = addr
                       ∧ ∃ gid g id, (gid, g) ∈ l ∧ Go.get (Group.Members g) id = Some m
            | inr _ => ∀ gid g id m, (gid, g) ∈ l →
                                     Go.get (Group.Members g) id = Some m →
                                     Member.Addr m ≠ addr
            end) as Hgroups.
  { induction l as [|[gid g] l IH]; simpl.
    { by intros gid g id m ?%elem_of_nil. }
    pose proof (memberScan addr
                  (rangeMembers σ 8%nat gid (Go.entries (Group.Members g)))) as Hin.
    pose proof (fairMembers σ Hσ 8%nat gid (Go.entries (Group.Members g))) as Hpm.
    destruct (Go.forRange (memberAt addr) tt
                (rangeMembers σ 8%nat gid (Go.entries (Group.Members g))))
      as [m|[]].
    - destruct Hin as (Ha & id & Hm). split; [done|]. exists gid, g, id.
      split; [apply list_elem_of_here|].
      by apply (range_elem_of _ _ _ _ Hpm) in Hm.
    - destruct (Go.forRange _ tt l) as [m|[]].
      + destruct IH as (Ha & gid' & g' & id & Hl & Hm). split; [done|].
        exists gid', g', id. split; [by apply list_elem_of_further|done].
      + intros gid' g' id m [[= -> ->]|Hl]%elem_of_cons Hm; [|by eapply IH].
        apply (Hin id m). by apply (range_elem_of _ _ _ _ Hpm). }
  specialize (Hgroups (rangeGroups σ 8%nat
                         (Go.entries (MembershipState.Groups (state s))))).
  destruct (Go.forRange _ tt (rangeGroups σ 8%nat _)) as [m|[]].
  - destruct Hgroups as (Ha & gid & g & id & Hin & Hm). split; [done|].
    right. split; [done|]. exists gid, g, id. split; [|done].
    by apply (range_elem_of _ _ _ _ Hpg) in Hin.
  - split; [done|]. intros gid g id m Hg Hm.
    apply (Hgroups gid g id m); [|done]. by apply (range_elem_of _ _ _ _ Hpg).
Qed.

Lemma member_at_address_witness :
  fair inOrder
  ∧ ∃ m, member inOrder twoGroups "b7:7080" = Some m ∧ Member.Addr m = "b7:7080".
Proof.
  split; [by split|].
  pose proof (member_at_address inOrder twoGroups "b7:7080" ltac:(by split)) as Hm.
  destruct (member inOrder twoGroups "b7:7080") as [m|].
  - exists m. split; [reflexivity|apply Hm].
  - destruct (proj2 Hm 2 (Group.mk (Some {[7 := beta]}) (Some ∅) 0) 7 beta);
      reflexivity.
Defined.

(** The loop of [Leader]: it returns at a healthy member flagged as
    leader; otherwise it ends with the last healthy member it saw, or
    with what it started from when it saw none. *)
Lemma leaderLoop E (l : list (Z * Member.t)) (acc : option string) :
  match Go.forRange (leaderStep E) acc l with
  | inl pl =>
    ∃ k m, (k, m) ∈ l ∧ Member.Addr m = pl
           ∧ healthy E pl = true ∧ Member.Leader m = true
  | inr pool =>
    (∀ k m, (k, m) ∈ l → healthy E (Member.Addr m) = true → Member.Leader m = false)
    ∧ (pool = acc ∧ (∀ k m, (k, m) ∈ l → healthy E (Member.Addr m) = false)
       ∨ ∃ k m, (k, m) ∈ l ∧ pool = Some (Member.Addr m)
                ∧ healthy E (Member.Addr m) = true)
  end.
Proof.
  revert acc. induction l as [|[k m] l IH]; intros acc; simpl.
  { split; [by intros k m ?%elem_of_nil|]. left. split; [done|].
    by intros k m ?%elem_of_nil. }
  destruct (healthy E (Member.Addr m)) eqn:Hh.
  - destruct (Member.Leader m) eqn:Hl.
    + exists k, m. split; [apply list_elem_of_here|done].
    + specialize (IH (Some (Member.Addr m))).
      destruct (Go.forRange (leaderStep E) (Some (Member.Addr m)) l) as [pl|pool].
      * destruct IH as (k' & m' & Hin & ?). exists k', m'.
        split; [by apply list_elem_of_further|done].
      * destruct IH as [Hnol Hpool]. split.
        { intros k' m' [[= -> ->]|Hin]%elem_of_cons Hh'; [done|by eapply Hnol]. }
        right. destruct Hpool as [[-> _]|(k' & m' & Hin & ?)].
        -- exists k, m. split; [apply list_elem_of_here|done].
        -- exists k', m'. split; [by apply list_elem_of_further|done].
  - specialize (IH acc).
    destruct (Go.forRange (leaderStep E) acc l) as [pl|pool].
    + destruct IH as (k' & m' & Hin & ?). exists k', m'.
      split; [by apply list_elem_of_further|done].
    + destruct IH as [Hnol Hpool]. split.
      { intros k' m' [[= -> ->]|Hin]%elem_of_cons Hh'; [congruence|by eapply Hnol]. }
      destruct Hpool as [[-> Hall]|(k' & m' & Hin & ?)].
      * left. split; [done|].
        intros k' m' [[= -> ->]|Hin]%elem_of_cons; [done|by eapply Hall].
      * right. exists k', m'. split; [by apply list_elem_of_further|done].
Qed.

(** X21. [Leader] looks among the Zeros for group 0 and among the members
    of the group otherwise. The pool it returns belongs to one of those
    members and is healthy; it belongs to a member flagged as leader
    whenever some such member has a healthy pool. It returns the nil pool
    exactly when the group is unknown or none of those members has a
    healthy pool. *)
Theorem Leader_pool E σ s gid :
  fair σ →
  let members :=
    if gid =? 0 then Some (MembershipState.Zeros (state s))
    else Group.Members <$> Go.get (MembershipState.Groups (state s)) gid in
  match Leader E σ s gid with
  | Some pl =>
    ∃ ms id m,
      members = Some ms
      ∧ Go.get ms id = Some m ∧ Member.Addr m = pl ∧ healthy E pl = true
      ∧ (Member.Leader m = true
         ∨ ∀ id' m', Go.get ms id' = Some m' → healthy E (Member.Addr m') = true →
                     Member.Leader m' = false)
  | None =>
    members = None
    ∨ ∃ ms, members = Some ms
            ∧ ∀ id m, Go.get ms id = Some m → healthy E (Member.Addr m) = false
  end.
Proof.
  intros Hσ members. unfold Leader. fold members.
  destruct members as [ms|]; [|by left].
  pose proof (leaderLoop E (rangeMembers σ 11%nat gid (Go.entries ms)) None) as Hloop.
  pose proof (fairMembers σ Hσ 11%nat gid (Go.entries ms)) as Hperm.
  destruct (Go.forRange (leaderStep E) None _) as [pl|[pl|]].
  - destruct Hloop as (id & m & Hin & Ha & Hh & Hl).
    exists ms, id, m. split; [done|].
    apply (range_elem_of _ _ _ _ Hperm) in Hin. by repeat split; [..|left].
  - destruct Hloop as [Hnol [[[=] _]|(id & m & Hin & [= ->] & Hh)]].
    exists ms, id, m. split; [done|].
    apply (range_elem_of _ _ _ _ Hperm) in Hin. do 3 (split; [done|]).
    right. intros id' m' Hm' Hh'. apply (Hnol id' m'); [|done].
    by apply (range_elem_of _ _ _ _ Hperm).
  - right. exists ms. split; [done|].
    destruct Hloop as [_ [[_ Hall]|(? & ? & _ & [=] & _)]].
    intros id m Hm. apply (Hall id m). by apply (range_elem_of _ _ _ _ Hperm).
Qed.

Lemma Leader_pool_witness :
  fair inOrder
  ∧ ∃ pl, Leader (quietEnv true) inOrder twoGroups 2 = Some pl
          ∧ healthy (quietEnv true) pl = true.
Proof.
  split; [by split|].
  pose proof (Leader_pool (quietEnv true) inOrder twoGroups 2 ltac:(by split)) as Hl.
  destruct (Leader (quietEnv true) inOrder twoGroups 2) as [pl|].
  - exists pl. split; [reflexivity|].
    by destruct Hl as (ms & id & m & _ & _ & _ & Hh & _).
  - destruct Hl as [Hl|(ms & Hms & Hall)]; [vm_compute in Hl; discriminate Hl|].
    injection Hms as <-. by specialize (Hall 7 beta eq_refl).
Defined.

(** ** removeNode *)

(** X22. For group 0, removeNode hands the removal to the consensus node
    as a peer removal and proposes nothing itself. For another group it
    proposes exactly when the state has the group and the group holds the
    node: one proposal, a member of that identity and group marked dead,
    whose error it returns. Otherwise it returns an error and leaves the
    world as it is. It never touches the connection pool. *)
Theorem removeNode_effects E ProposePeerRemoval w nodeId groupId :
  let zp :=
    ZeroProposal.mk None (Some (Member.mk nodeId groupId "" false true false)) None 0 in
  let '(err, w') := removeNode E ProposePeerRemoval w nodeId groupId in
  pool w' = pool w
  ∧ if groupId =? 0
    then ProposePeerRemoval nodeId (srv w) = (err, srv w') ∧ proposed w' = proposed w
    else
      (∃ group, Go.get (MembershipState.Groups (state (srv w))) groupId = Some group
                ∧ is_Some (Go.get (Group.Members group) nodeId))
      ∧ proposed w' = proposed w ++ [zp]
      ∧ proposeAndWait E zp (srv w) = (err, srv w')
      ∨ ¬ (∃ group, Go.get (MembershipState.Groups (state (srv w))) groupId = Some group
                    ∧ is_Some (Go.get (Group.Members group) nodeId))
        ∧ w' = w ∧ is_Some err.
Proof.
  unfold removeNode. cbv zeta.
  destruct (groupId =? 0).
  { by destruct (ProposePeerRemoval nodeId (srv w)) as [err s']. }
  destruct (Go.get (MembershipState.Groups (state (srv w))) groupId) as [group|].
  - destruct (Go.get (Group.Members group) nodeId) as [held|] eqn:Hheld.
    + destruct (proposeAndWait E _ (srv w)) as [err s']. split; [done|]. left.
      split; [|done]. exists group. split; [done|]. by eexists.
    + split; [done|]. right. split; [|by split; [|eexists]].
      intros (g & [= <-] & [? Hsome]). by rewrite Hheld in Hsome.
  - split; [done|]. right. split; [|by split; [|eexists]].
    by intros (g & [=] & _).
Qed.

(** ** SetMembershipState: further properties *)

Lemma SetMembershipState_server σ s st :
  (SetMembershipState σ s st).1
  = mkServer (NumReplicas s) (state (SetMembershipState σ s st).1)
      (nextLeaseId s) (nextTxnTs s) (readOnlyTs s)
      (Go.uint32
         (Go.len (MembershipState.Groups (state (SetMembershipState σ s st).1)) + 1)).
Proof.
  unfold SetMembershipState. by destruct (foldl _ _ _) as [groups' conns].
Qed.

Lemma ensureTablets_idemp g : ensureTablets (ensureTablets g) = ensureTablets g.
Proof. unfold ensureTablets. by destruct g as [ms [ts|] ts0]. Qed.

(** X23. Installing again the state that SetMembershipState installed
    changes nothing: the server, its state and [nextGroup] are the same
    after the second replacement, in whatever order the groups are
    visited. *)
Theorem SetMembershipState_idempotent σ σ' s st :
  fair σ → fair σ' →
  let s1 := (SetMembershipState σ s st).1 in
  (SetMembershipState σ' s1 (state s1)).1 = s1.
Proof.
  intros Hσ Hσ' s1.
  assert (state (SetMembershipState σ' s1 (state s1)).1 = state s1) as Hstate.
  { rewrite SetMembershipState_state by done.
    subst s1. rewrite SetMembershipState_state by done. simpl.
    f_equal. f_equal.
    rewrite <- map_fmap_compose. apply map_fmap_ext. intros gid g _. simpl.
    apply ensureTablets_idemp. }
  rewrite SetMembershipState_server, Hstate.
  pose proof (SetMembershipState_server σ s st) as Hs1. fold s1 in Hs1.
  etransitivity; [|symmetry; exact Hs1].
  f_equal; by rewrite Hs1.
Qed.

Lemma SetMembershipState_idempotent_witness :
  fair inOrder ∧ fair backwards
  ∧ (SetMembershipState backwards
       (SetMembershipState inOrder (Init 1) bareGroupState).1
       (state (SetMembershipState inOrder (Init 1) bareGroupState).1)).1
    = (SetMembershipState inOrder (Init 1) bareGroupState).1.
Proof.
  split; [by split|]. split; [exact fair_backwards|].
  apply (SetMembershipState_idempotent inOrder backwards (Init 1) bareGroupState);
    [by split|exact fair_backwards].
Defined.

Lemma setGroup_conns σ l acc :
  (foldl (setGroup σ) acc l).2
  = acc.2
    ++ mjoin
         ((λ e : Z * Group.t,
             (λ km : Z * Member.t, PoolConnect (Member.Addr km.2))
               <$> rangeMembers σ 0%nat e.1 (Go.entries (Group.Members e.2)))
            <$> l).
Proof.
  revert acc. induction l as [|[gid g] l IH]; intros acc; simpl.
  - by rewrite app_nil_r.
  - rewrite IH. simpl. by rewrite <- app_assoc.
Qed.

(** X24. The calls SetMembershipState makes on the connection pool are
    connects, one to the address of each member of each group of the
    installed state and to nothing else: the Zeros are not connected to,
    and nothing is removed from the pool. *)
Theorem SetMembershipState_connects σ s st op :
  fair σ →
  op ∈ (SetMembershipState σ s st).2
  ↔ ∃ gid g id m,
      Go.get (MembershipState.Groups st) gid = Some g
      ∧ Go.get (Group.Members g) id = Some m
      ∧ op = PoolConnect (Member.Addr m).
Proof.
  intros Hσ.
  assert ((SetMembershipState σ s st).2
          = mjoin
              ((λ e : Z * Group.t,
                  (λ km : Z * Member.t, PoolConnect (Member.Addr km.2))
                    <$> rangeMembers σ 0%nat e.1 (Go.entries (Group.Members e.2)))
                 <$> rangeGroups σ 0%nat (Go.entries (MembershipState.Groups st))))
    as ->.
  { unfold SetMembershipState.
    set (st1 := match MembershipState.Zeros st with
                | None => _ | Some _ => _ end).
    set (st2 := match MembershipState.Groups st1 with
                | None => _ | Some _ => _ end).
    assert (Go.entries (MembershipState.Groups st2)
            = Go.entries (MembershipState.Groups st)) as ->
      by (subst st2 st1; by destruct st as [? [?|] [?|] ? ? ? ?]).
    pose proof (setGroup_conns σ
                  (rangeGroups σ 0%nat (Go.entries (MembershipState.Groups st)))
                  (Go.entries (MembershipState.Groups st), [])) as Hc.
    by destruct (foldl _ _ _) as [groups' conns]. }
  pose proof (fairGroups σ Hσ 0%nat (Go.entries (MembershipState.Groups st))) as Hpg.
  rewrite list_elem_of_join. split.
  - intros (ops & Hop & Hops). apply list_elem_of_fmap in Hops as ([gid g] & -> & Hg).
    apply list_elem_of_fmap in Hop as ([id m] & -> & Hm). simpl in *.
    exists gid, g, id, m.
    apply (range_elem_of _ _ _ _ Hpg) in Hg.
    by apply (range_elem_of _ _ _ _ (fairMembers σ Hσ _ _ _)) in Hm.
  - intros (gid & g & id & m & Hg & Hm & ->).
    eexists. split; last first.
    + apply list_elem_of_fmap. exists (gid, g). split; [reflexivity|].
      by apply (range_elem_of _ _ _ _ Hpg).
    + apply list_elem_of_fmap. exists (id, m). split; [done|]. simpl.
      by apply (range_elem_of _ _ _ _ (fairMembers σ Hσ _ _ _)).
Qed.

Lemma SetMembershipState_connects_witness :
  fair inOrder
  ∧ PoolConnect "b7:7080" ∈ (SetMembershipState inOrder (Init 1) (state twoGroups)).2.
Proof.
  split; [by split|].
  apply (SetMembershipState_connects inOrder (Init 1) (state twoGroups)); [by split|].
  exists 2, (Group.mk (Some {[7 := beta]}) (Some ∅) 0), 7, beta.
  by repeat split.
Defined.

(** ** Connect: reconnecting *)




